(** * wrmatch: the method router and the single-tree pattern matcher

    A shallow embedding of [router.go], [pattern.go] and [option.go].

    The radix tree ([node], [addRoute], [getValue],
    [findCaseInsensitivePath]) and the helpers [CleanPath] and [countParams]
    live in files of the package that are not part of the sources at hand.
    The router is therefore written against an interface, the class
    [Engine]; module [Trie] further down gives an instance of that interface
    that follows the written specification of the tree. *)

From Stdlib Require Import ZArith String Ascii List Bool Lia.
From stdpp Require Import gmap strings.

Local Open Scope string_scope.
Local Open Scope list_scope.
Local Open Scope Z_scope.

(** ** Go values *)

(** [interface{}] as the router sees it: the nil interface, a [matchValue]
    struct, or any other dynamic value (of a type [U] the router never
    inspects). *)
Inductive any (U : Type) : Type :=
| nil_value
| user_value (u : U)
| matchValue (matchedPath : string) (Value : any U).

Arguments nil_value {U}.
Arguments user_value {U} u.
Arguments matchValue {U} matchedPath Value.

(** [value == nil] *)
Definition is_nil {U : Type} (value : any U) : bool :=
  match value with
  | nil_value => true
  | _ => false
  end.

(** The panics of the package. Those raised by [router.go] and [pattern.go]
    carry the message of the source; a panic raised inside the tree is kept
    apart under [PanicTree]. *)
Inductive panic : Type :=
| PanicMethodEmpty
| PanicPath (path : string)
| PanicValueNil
| PanicNotMatchValue
| PanicTree (msg : string).

Definition panic_message (p : panic) : string :=
  match p with
  | PanicMethodEmpty => "method must not be empty"
  | PanicPath path => "path must begin with '/' in path '" +:+ path +:+ "'"
  | PanicValueNil => "value must not be nil"
  | PanicNotMatchValue =>
      "enabled saveMatchedRoutePath, value should be struct(matchValue)"
  | PanicTree msg => msg
  end.

(** A call either returns or panics. *)
Inductive result (A : Type) : Type :=
| Ok (a : A)
| Panic (p : panic).

Arguments Ok {A} a.
Arguments Panic {A} p.

Definition bind {A B : Type} (m : result A) (k : A -> result B) : result B :=
  match m with
  | Ok a => k a
  | Panic p => Panic p
  end.

Notation "x <- m ;; k" := (bind m (fun x => k))
  (at level 100, m at next level, right associativity).

(** A panic inside [addRoute] passes through the caller unchanged. *)
Definition grown {A : Type} (r : string + A) : result A :=
  match r with
  | inr a => Ok a
  | inl msg => Panic (PanicTree msg)
  end.

(** [uint16] arithmetic: addition wraps around. *)
Definition uint16_modulus : Z := 65536.

Definition uint16_add (a b : Z) : Z := (a + b) mod uint16_modulus.

(** ** Strings as Go sees them: byte sequences *)

(** [len(path)] *)
Definition len (s : string) : Z := Z.of_nat (String.length s).

(** [path[i] == c], false when [i] is out of range (the source guards every
    index with a length test). *)
Definition byte_is (s : string) (i : Z) (c : ascii) : bool :=
  match String.get (Z.to_nat i) s with
  | Some b => Ascii.eqb b c
  | None => false
  end.

(** [path[:n]] *)
Definition slice_to (s : string) (n : Z) : string :=
  String.substring 0 (Z.to_nat n) s.

(** ** Parameters *)

Definition MatchedRoutePathParam : string := "$matchedRoutePath".

Record Param : Type := mkParam { Key : string; Value : string }.

Definition Params : Type := list Param.

(** [Params.Param]: the loop returns at the first key that matches. *)
Fixpoint Params_Param (ps : Params) (name : string) : string :=
  match ps with
  | [] => EmptyString
  | p :: rest =>
      if String.eqb (Key p) name then Value p else Params_Param rest name
  end.

(** A [Params] result is a slice header that may be nil; ranging over a nil
    slice visits nothing. *)
Definition elems (ps : option Params) : Params :=
  match ps with
  | Some l => l
  | None => []
  end.

Definition MatchedRoutePath (ps : option Params) : string :=
  Params_Param (elems ps) MatchedRoutePathParam.

(** ** Options *)

Record Options : Type := mkOptions {
  saveMatchedRoutePath : bool;
  redirectTrailingSlash : bool;
  redirectFixedPath : bool
}.

Definition Option_ : Type := Options -> Options.

Definition WithDisableRedirectTrailingSlash : Option_ :=
  fun r => mkOptions (saveMatchedRoutePath r) false (redirectFixedPath r).

Definition WithDisableRedirectFixedPath : Option_ :=
  fun r => mkOptions (saveMatchedRoutePath r) (redirectTrailingSlash r) false.

Definition WithSaveMatchedRoutePath : Option_ :=
  fun r => mkOptions true (redirectTrailingSlash r) (redirectFixedPath r).

Definition default_options : Options := mkOptions false true true.

Definition apply_options (opts : list Option_) : Options :=
  fold_left (fun o opt => opt o) opts default_options.

(** ** HTTP method names used by the router *)

Definition MethodGet : string := "GET".
Definition MethodHead : string := "HEAD".
Definition MethodPost : string := "POST".
Definition MethodPut : string := "PUT".
Definition MethodPatch : string := "PATCH".
Definition MethodDelete : string := "DELETE".
Definition MethodConnect : string := "CONNECT".
Definition MethodOptions : string := "OPTIONS".
Definition MethodTrace : string := "TRACE".

(** ** The tree interface

    What [router.go] and [pattern.go] use of the tree. [addRoute] answers
    with the grown tree, or with the message of the panic it raised.
    [getValue] receives the allocator [paramsNew] as [Some capacity], or
    [None] for a nil function, and answers with the value, the parameter
    buffer ([None] for a nil pointer) and the trailing-slash flag.
    [countParams] yields a [uint16]. *)
Class Engine (U : Type) : Type := {
  node : Type;
  new_node : node;
  addRoute : node -> string -> any U -> string + node;
  getValue : node -> string -> option Z -> any U * option Params * bool;
  findCaseInsensitivePath : node -> string -> bool -> string * bool;
  CleanPath : string -> string;
  countParams : string -> Z;
  countParams_uint16 : forall path, 0 <= countParams path < uint16_modulus
}.

(** What a lookup hands back: value, parameters, flag. *)
Definition answer (U : Type) : Type := (any U * option Params * bool)%type.

Definition no_match {U : Type} : answer U := (nil_value, None, false).

(** One pass through the body of [Router.match] or [Pattern.MatchURL] either
    returns an answer or ends in the tail call on a rewritten path. *)
Inductive outcome (A : Type) : Type :=
| Return (a : A)
| Again (path : string).

Arguments Return {A} a.
Arguments Again {A} path.

(** The trailing slash toggle of the redirect branch. *)
Definition toggle_slash (path : string) : string :=
  if (1 <? len path) && byte_is path (len path - 1) "/"
  then slice_to path (len path - 1)
  else path +:+ "/".

Section Router.

Context {U : Type} {E : Engine U}.

Record Router : Type := mkRouter {
  trees : gmap string node;
  paramsNew : bool;
  maxParams : Z;
  options : Options
}.

(** [r.paramsNew] as an argument: nil until the lazy initialisation, then a
    closure that allocates with the capacity [r.maxParams] has at the time
    of the call. *)
Definition paramsNew_of (r : Router) : option Z :=
  if paramsNew r then Some (maxParams r) else None.

Definition New (opts : list Option_) : Router :=
  mkRouter ∅ false 0 (apply_options opts).

Definition Add (r : Router) (method path : string) (value : any U)
  : result Router :=
  let varsCount := 0 in
  if String.eqb method EmptyString then Panic PanicMethodEmpty
  else if (len path <? 1) || negb (byte_is path 0 "/")
  then Panic (PanicPath path)
  else if is_nil value then Panic PanicValueNil
  else
    let '(value, varsCount) :=
      if saveMatchedRoutePath (options r)
      then (matchValue path value, uint16_add varsCount 1)
      else (value, varsCount) in
    let root :=
      match trees r !! method with
      | Some root => root
      | None => new_node
      end in
    root' <- grown (addRoute root path value) ;;
    let paramsCount := countParams path in
    let maxParams' :=
      if uint16_add paramsCount varsCount >? maxParams r
      then uint16_add paramsCount varsCount
      else maxParams r in
    let paramsNew' :=
      if negb (paramsNew r) && (maxParams' >? 0) then true else paramsNew r in
    Ok (mkRouter (<[method := root']> (trees r)) paramsNew' maxParams'
          (options r)).

Definition GET (r : Router) path value := Add r MethodGet path value.
Definition HEAD (r : Router) path value := Add r MethodHead path value.
Definition OPTIONS (r : Router) path value := Add r MethodOptions path value.
Definition POST (r : Router) path value := Add r MethodPost path value.
Definition PUT (r : Router) path value := Add r MethodPut path value.
Definition PATCH (r : Router) path value := Add r MethodPatch path value.
Definition DELETE (r : Router) path value := Add r MethodDelete path value.

Definition Any (r : Router) (path : string) (value : any U) : result Router :=
  r <- Add r MethodGet path value ;;
  r <- Add r MethodPost path value ;;
  r <- Add r MethodPut path value ;;
  r <- Add r MethodPatch path value ;;
  r <- Add r MethodHead path value ;;
  r <- Add r MethodOptions path value ;;
  r <- Add r MethodDelete path value ;;
  r <- Add r MethodConnect path value ;;
  Add r MethodTrace path value.

(** [Router.Lookup] has a pointer receiver; the router it leaves behind is
    returned next to the answer. *)
Definition Lookup (r : Router) (method path : string) : answer U * Router :=
  match trees r !! method with
  | Some root =>
      let '(value, ps, tsr) := getValue root path (paramsNew_of r) in
      if is_nil value then ((nil_value, None, tsr), r)
      else
        match ps with
        | None => ((value, None, tsr), r)
        | Some l => ((value, Some l, tsr), r)
        end
  | None => ((nil_value, None, false), r)
  end.

(** The branch of [match] taken when the tree found a value. *)
Definition deliver (save : bool) (value : any U) (ps : option Params)
  : result (answer U) :=
  if save then
    match value with
    | matchValue matchedPath v =>
        match ps with
        | None => Ok (v, Some [mkParam MatchedRoutePathParam matchedPath], true)
        | Some l =>
            Ok (v, Some (l ++ [mkParam MatchedRoutePathParam matchedPath])%list, true)
        end
    | _ => Panic PanicNotMatchValue
    end
  else
    match ps with
    | None => Ok (value, None, true)
    | Some l => Ok (value, Some l, true)
    end.

(** The body of [Router.match]; the two [return r.Match(method, path)] are
    the [Again] exits. *)
Definition match_body (r : Router) (method path : string)
    (paramsNew : option Z) : result (outcome (answer U)) :=
  match trees r !! method with
  | Some root =>
      let '(value, ps, tsr) := getValue root path paramsNew in
      if negb (is_nil value) then
        a <- deliver (saveMatchedRoutePath (options r)) value ps ;;
        Ok (Return a)
      else if negb (String.eqb method MethodConnect)
              && negb (String.eqb path "/") then
        if tsr && redirectTrailingSlash (options r) then
          Ok (Again (toggle_slash path))
        else if redirectFixedPath (options r) then
          let '(fixedPath, found) :=
            findCaseInsensitivePath root (CleanPath path)
              (redirectTrailingSlash (options r)) in
          if found then Ok (Again fixedPath) else Ok (Return no_match)
        else Ok (Return no_match)
      else Ok (Return no_match)
  | None => Ok (Return no_match)
  end.

(** [Router.match]. The recursion goes through [Router.Match], which passes
    [r.paramsNew]; nothing in the router bounds it, so the embedding takes
    fuel and answers [None] when it runs out. *)
Fixpoint match_ (fuel : nat) (r : Router) (method path : string)
    (paramsNew : option Z) : option (result (answer U)) :=
  match fuel with
  | O => None
  | S fuel' =>
      match match_body r method path paramsNew with
      | Panic p => Some (Panic p)
      | Ok (Return a) => Some (Ok a)
      | Ok (Again path') => match_ fuel' r method path' (paramsNew_of r)
      end
  end.

Definition Match (fuel : nat) (r : Router) (method path : string)
  : option (result (answer U)) :=
  match_ fuel r method path (paramsNew_of r).

Definition MatchURL (fuel : nat) (r : Router) (method path : string)
  : option (result (any U * string * bool)) :=
  match match_ fuel r method path None with
  | Some (Ok (v, params, matched)) =>
      Some (Ok (v, MatchedRoutePath params, matched))
  | Some (Panic p) => Some (Panic p)
  | None => None
  end.

(** The paths handed to the recursive [r.Match] calls of one request, in
    order: its redirect hops. *)
Fixpoint redirects (fuel : nat) (r : Router) (method path : string)
    (paramsNew : option Z) : list string :=
  match fuel with
  | O => []
  | S fuel' =>
      match match_body r method path paramsNew with
      | Ok (Again path') =>
          path' :: redirects fuel' r method path' (paramsNew_of r)
      | _ => []
      end
  end.

(** *** Pattern: one tree, no methods *)

Record Pattern : Type := mkPattern {
  root : node;
  pattern_options : Options
}.

Definition NewPattern (opts : list Option_) : Pattern :=
  mkPattern new_node (apply_options opts).

Definition Pattern_Add (r : Pattern) (path : string) (value : any U)
  : result Pattern :=
  if (len path <? 1) || negb (byte_is path 0 "/")
  then Panic (PanicPath path)
  else if is_nil value then Panic PanicValueNil
  else
    let value :=
      if saveMatchedRoutePath (pattern_options r)
      then matchValue path value
      else value in
    root' <- grown (addRoute (root r) path value) ;;
    Ok (mkPattern root' (pattern_options r)).

Definition Pattern_MatchURL_body (r : Pattern) (path : string)
  : result (outcome (any U * string * bool)) :=
  let '(value, _, tsr) := getValue (root r) path None in
  if negb (is_nil value) then
    if saveMatchedRoutePath (pattern_options r) then
      match value with
      | matchValue matchedPath v => Ok (Return (v, matchedPath, true))
      | _ => Panic PanicNotMatchValue
      end
    else Ok (Return (value, EmptyString, true))
  else if negb (String.eqb path "/") then
    if tsr && redirectTrailingSlash (pattern_options r) then
      Ok (Again (toggle_slash path))
    else if redirectFixedPath (pattern_options r) then
      let '(fixedPath, found) :=
        findCaseInsensitivePath (root r) (CleanPath path)
          (redirectTrailingSlash (pattern_options r)) in
      if found then Ok (Again fixedPath)
      else Ok (Return (nil_value, EmptyString, false))
    else Ok (Return (nil_value, EmptyString, false))
  else Ok (Return (nil_value, EmptyString, false)).

Fixpoint Pattern_MatchURL (fuel : nat) (r : Pattern) (path : string)
  : option (result (any U * string * bool)) :=
  match fuel with
  | O => None
  | S fuel' =>
      match Pattern_MatchURL_body r path with
      | Panic p => Some (Panic p)
      | Ok (Return a) => Some (Ok a)
      | Ok (Again path') => Pattern_MatchURL fuel' r path'
      end
  end.

End Router.

Arguments Router U {E}.
Arguments Pattern U {E}.

(** ** Vocabulary of the properties *)

(** A pattern that is non-empty and begins with ['/']. *)
Definition begins_with_slash (path : string) : Prop :=
  String.get 0 path = Some "/"%char.

(** The panics that answer a violated precondition on pattern or value. *)
Definition precondition_panic (p : panic) : Prop :=
  match p with
  | PanicPath _ | PanicValueNil => True
  | _ => False
  end.

(** The three options of [option.go], by name. *)
Inductive option_name : Type :=
| DisableRedirectTrailingSlash
| DisableRedirectFixedPath
| SaveMatchedRoutePath.

Definition option_of (name : option_name) : Option_ :=
  match name with
  | DisableRedirectTrailingSlash => WithDisableRedirectTrailingSlash
  | DisableRedirectFixedPath => WithDisableRedirectFixedPath
  | SaveMatchedRoutePath => WithSaveMatchedRoutePath
  end.

(** Is the option [name] among the options [l]? *)
Definition option_given (name : option_name) (l : list option_name) : bool :=
  existsb (fun n => match n, name with
                    | DisableRedirectTrailingSlash, DisableRedirectTrailingSlash
                    | DisableRedirectFixedPath, DisableRedirectFixedPath
                    | SaveMatchedRoutePath, SaveMatchedRoutePath => true
                    | _, _ => false
                    end) l.

(** The methods [Router.Any] registers under, in its order. *)
Definition Any_methods : list string :=
  [MethodGet; MethodPost; MethodPut; MethodPatch; MethodHead; MethodOptions;
   MethodDelete; MethodConnect; MethodTrace].

Definition Any_routes {U : Type} (path : string) (value : any U)
  : list (string * string * any U) :=
  map (fun method => (method, path, value)) Any_methods.

Section Vocabulary.

Context {U : Type} {E : Engine U}.

(** The tree [Add] grows: the one of the method, or a new one. *)
Definition tree_of (r : Router U) (method : string) : node :=
  match trees r !! method with
  | Some root => root
  | None => new_node
  end.

(** What [Add] hands to the tree, and the synthetic parameter it counts. *)
Definition stored_value (save : bool) (path : string) (value : any U)
  : any U :=
  if save then matchValue path value else value.

Definition synthetic_params (save : bool) : Z := if save then 1 else 0.

(** The redirect policy as documented: the trailing slash is toggled when
    the lookup reported the flag; otherwise the path is cleaned and the
    case-insensitive recovery is asked for a corrected path. *)
Definition redirect_target (root : node) (path : string) (tsr : bool)
  : option string :=
  if tsr then Some (toggle_slash path)
  else
    let '(fixedPath, found) :=
      findCaseInsensitivePath root (CleanPath path) true in
    if found then Some fixedPath else None.

(** A sequence of registrations on one router; a panic ends it. *)
Fixpoint Add_all (r : Router U) (l : list (string * string * any U))
  : result (Router U) :=
  match l with
  | [] => Ok r
  | (method, path, value) :: rest =>
      r' <- Add r method path value ;; Add_all r' rest
  end.

(** What the lazy initialisation of [Add] keeps: the allocator is set exactly
    when [maxParams] is positive, and [maxParams] is a [uint16]. *)
Definition allocator_invariant (r : Router U) : Prop :=
  paramsNew r = (maxParams r >? 0) /\ 0 <= maxParams r < uint16_modulus.

End Vocabulary.

(** ** The tree, as the specification describes it

    [tree.go] and [path.go] are not among the sources. Module [Trie] gives
    the compact prefix tree, its insertion, lookup, case-insensitive
    recovery and the path normaliser as sections 3, 4.1 to 4.4 and 8 of the
    specification describe them, and packs them into an [Engine]. *)
Module Trie.

(** *** Byte-string helpers *)

Fixpoint string_drop (n : nat) (s : string) : string :=
  match n, s with
  | S n', String _ rest => string_drop n' rest
  | _, _ => s
  end.

Fixpoint string_take (n : nat) (s : string) : string :=
  match n, s with
  | S n', String c rest => String c (string_take n' rest)
  | _, _ => EmptyString
  end.

Fixpoint common_prefix_len (a b : string) : nat :=
  match a, b with
  | String x a', String y b' =>
      if Ascii.eqb x y then S (common_prefix_len a' b') else O
  | _, _ => O
  end.

Definition first_byte_is (c : ascii) (s : string) : bool :=
  match s with
  | String x _ => Ascii.eqb x c
  | EmptyString => false
  end.

Definition same_first_byte (a b : string) : bool :=
  match a, b with
  | String x _, String y _ => Ascii.eqb x y
  | _, _ => false
  end.

Fixpoint ends_with_slash (s : string) : bool :=
  match s with
  | EmptyString => false
  | String c EmptyString => Ascii.eqb c "/"
  | String _ rest => ends_with_slash rest
  end.

Fixpoint contains_slash (s : string) : bool :=
  match s with
  | EmptyString => false
  | String c rest => Ascii.eqb c "/" || contains_slash rest
  end.

(** ASCII case folding. *)
Definition lower (c : ascii) : ascii :=
  let n := nat_of_ascii c in
  if (65 <=? n)%nat && (n <=? 90)%nat then ascii_of_nat (n + 32) else c.

(** [a] is a prefix of [b] up to the case of letters. *)
Fixpoint ci_prefix (a b : string) : bool :=
  match a, b with
  | EmptyString, _ => true
  | String x a', String y b' => Ascii.eqb (lower x) (lower y) && ci_prefix a' b'
  | String _ _, EmptyString => false
  end.

(** The longest run of non-['/'] bytes at the head of [s], and what
    follows it. *)
Fixpoint span_segment (s : string) : string * string :=
  match s with
  | EmptyString => (EmptyString, EmptyString)
  | String c rest =>
      if Ascii.eqb c "/" then (EmptyString, s)
      else let '(run, tl) := span_segment rest in (String c run, tl)
  end.

(** *** Nodes *)

Inductive kind : Type :=
| StaticNode
| RootNode
| ParameterNode
| CatchAllNode.

Definition is_wildcard (k : kind) : bool :=
  match k with
  | ParameterNode | CatchAllNode => true
  | _ => false
  end.

(** Modelled from the spec: the trie vertex of section 3 (data model), with
    its fields [segment], [kind], [value], [fullPattern], [priority],
    [children] and [hasWildcardChild]; the type [node] of [tree.go] is
    missing. *)
#[local] Unset Elimination Schemes.
Inductive node (U : Type) : Type :=
  Node (segment : string) (nkind : kind) (value : any U)
       (fullPattern : string) (priority : nat) (children : list (node U))
       (hasWildcardChild : bool).

#[local] Set Elimination Schemes.

Arguments Node {U} segment nkind value fullPattern priority children
  hasWildcardChild.

Section Fields.
Context {U : Type}.

Definition segment (n : node U) : string :=
  let 'Node s _ _ _ _ _ _ := n in s.
Definition nkind (n : node U) : kind :=
  let 'Node _ k _ _ _ _ _ := n in k.
Definition value (n : node U) : any U :=
  let 'Node _ _ v _ _ _ _ := n in v.
Definition fullPattern (n : node U) : string :=
  let 'Node _ _ _ f _ _ _ := n in f.
Definition priority (n : node U) : nat :=
  let 'Node _ _ _ _ p _ _ := n in p.
Definition children (n : node U) : list (node U) :=
  let 'Node _ _ _ _ _ c _ := n in c.
Definition hasWildcardChild (n : node U) : bool :=
  let 'Node _ _ _ _ _ _ h := n in h.

Definition holds_value (n : node U) : bool := negb (is_nil (value n)).

(** The tree a registry entry starts from: a root that owns no bytes. *)
Definition empty_root : node U :=
  Node EmptyString RootNode nil_value EmptyString 0 [] false.
End Fields.

(** *** Patterns *)

(** A segment that has gathered no byte is dropped. *)
Definition flush (k : kind) (acc : string) (tl : list (kind * string))
  : list (kind * string) :=
  match acc with
  | EmptyString => tl
  | _ => (k, acc) :: tl
  end.

(** Modelled from the spec: the pattern grammar of sections 4.2 and 6
    (the pattern parser of [tree.go] is missing). A pattern is cut into
    literal runs and wildcard segments. A parameter segment starts at the
    sigil [':'] and extends to the next ['/'] or the end; a catch-all
    segment starts at the sigil ['*'] and extends to the end, and since its
    capture includes the leading ['/'] (section 4.3), the ['/'] in front of
    the sigil belongs to the segment. [k] and [acc] are the kind and the
    bytes of the segment being read. *)
Fixpoint scan (p : string) (k : kind) (acc : string)
  : list (kind * string) :=
  match p with
  | EmptyString => flush k acc []
  | String c rest =>
      match k with
      | ParameterNode =>
          if Ascii.eqb c "/" then
            if first_byte_is "*" rest then (ParameterNode, acc) :: [(CatchAllNode, p)]
            else (ParameterNode, acc) :: scan rest StaticNode (String c EmptyString)
          else scan rest ParameterNode (acc +:+ String c EmptyString)
      | _ =>
          if Ascii.eqb c "*" then flush StaticNode acc [(CatchAllNode, p)]
          else if Ascii.eqb c "/" && first_byte_is "*" rest
          then flush StaticNode acc [(CatchAllNode, p)]
          else if Ascii.eqb c ":"
          then flush StaticNode acc (scan rest ParameterNode (String c EmptyString))
          else scan rest StaticNode (acc +:+ String c EmptyString)
      end
  end.

Definition segments (p : string) : list (kind * string) :=
  scan p StaticNode EmptyString.

(** The declared name of a wildcard segment: what follows the sigil. *)
Fixpoint wildcard_name (seg : string) : string :=
  match seg with
  | EmptyString => EmptyString
  | String c rest =>
      if Ascii.eqb c ":" || Ascii.eqb c "*" then rest else wildcard_name rest
  end.

(** Does the remaining pattern open with a wildcard segment? *)
Definition starts_wildcard (p : string) : bool :=
  match segments p with
  | (k, _) :: _ => is_wildcard k
  | [] => false
  end.

(** Modelled from the spec: section 4.5, the parameter count of a pattern
    that the registry caches the maximum of ([countParams] of [tree.go] is
    missing); [router.go] adds it to a [uint16]. *)
Definition count_params (p : string) : Z :=
  Z.of_nat (List.length (filter (fun t => is_wildcard (fst t)) (segments p)))
  mod uint16_modulus.

Section Engine.
Context {U : Type}.

(** A catch-all must close the pattern: its name holds no ['/']. *)
Definition legal_segment (t : kind * string) : bool :=
  match fst t with
  | CatchAllNode => negb (contains_slash (wildcard_name (snd t)))
  | _ => true
  end.

(** The nodes for a remainder that no existing child covers; the last one
    receives the value. *)
Fixpoint chain (toks : list (kind * string)) (fp : string) (v : any U)
  : option (node U) :=
  match toks with
  | [] => None
  | (k, s) :: rest =>
      match rest with
      | [] => Some (Node s k v fp 1 [] false)
      | _ =>
          match chain rest fp v with
          | Some c => Some (Node s k nil_value EmptyString 1 [c]
                              (is_wildcard (nkind c)))
          | None => None
          end
      end
  end.

Definition new_chain (p fp : string) (v : any U) : result (node U) :=
  if forallb legal_segment (segments p) then
    match chain (segments p) fp v with
    | Some c => Ok c
    | None => Panic (PanicTree "empty pattern")
    end
  else Panic (PanicTree "catch-all is only legal as the final segment").

(** Siblings in descending priority, equal priorities in their old
    order. *)
Fixpoint insert_by_priority (c : node U) (l : list (node U))
  : list (node U) :=
  match l with
  | [] => [c]
  | d :: l' =>
      if (priority c <? priority d)%nat
      then d :: insert_by_priority c l'
      else c :: l
  end.

Definition sort_children (l : list (node U)) : list (node U) :=
  fold_right insert_by_priority [] l.

(** A remainder with no child to descend into becomes a new child. *)
Definition append_child (seg : string) (k : kind) (val : any U)
    (fpat : string) (pr : nat) (ch : list (node U)) (p fp : string)
    (v : any U) : result (node U) :=
  if starts_wildcard p then
    match ch with
    | [] =>
        c <- new_chain p fp v ;;
        Ok (Node seg k val fpat (S pr) [c] true)
    | _ => Panic (PanicTree "wildcard conflicts with a static sibling")
    end
  else
    c <- new_chain p fp v ;;
    Ok (Node seg k val fpat (S pr) (sort_children (ch ++ [c])%list) false).

(** Does the remaining pattern open with exactly the wildcard segment
    [seg]? *)
Definition same_wildcard (seg p : string) : bool :=
  String.prefix seg p
  && match string_drop (String.length seg) p with
     | EmptyString => true
     | String c _ => Ascii.eqb c "/"
     end.

(** Modelled from the spec: section 4.2, insert ([node.addRoute] of
    [tree.go] is missing). [p] is the part of the pattern [fp] still to
    be placed below the parent of [n]. *)
Fixpoint insert (n : node U) (p fp : string) (v : any U) {struct n}
  : result (node U) :=
  match n with
  | Node seg k val fpat pr ch hw =>
      let descend := fun (p' : string) =>
        match p' with
        | EmptyString =>
            if is_nil val then Ok (Node seg k v fp (S pr) ch hw)
            else Panic (PanicTree "pattern is already registered")
        | _ =>
            if hw then
              match ch with
              | [c] =>
                  c' <- insert c p' fp v ;;
                  Ok (Node seg k val fpat (S pr) [c'] true)
              | _ => Panic (PanicTree "wildcard child is not the sole child")
              end
            else
              match
                (fix into (cs : list (node U))
                   : option (result (list (node U))) :=
                   match cs with
                   | [] => None
                   | c :: cs' =>
                       if same_first_byte (segment c) p' then
                         Some (c' <- insert c p' fp v ;; Ok (c' :: cs'))
                       else
                         match into cs' with
                         | Some r => Some (r' <- r ;; Ok (c :: r'))
                         | None => None
                         end
                   end) ch
              with
              | Some r =>
                  if starts_wildcard p' then
                    Panic (PanicTree "wildcard conflicts with a static sibling")
                  else
                    ch' <- r ;;
                    Ok (Node seg k val fpat (S pr) (sort_children ch') false)
              | None => append_child seg k val fpat pr ch p' fp v
              end
        end in
      match k with
      | CatchAllNode =>
          if String.eqb p seg
          then Panic (PanicTree "pattern is already registered")
          else Panic (PanicTree "conflict with an existing catch-all")
      | ParameterNode =>
          if same_wildcard seg p
          then descend (string_drop (String.length seg) p)
          else Panic (PanicTree "conflict with an existing wildcard")
      | _ =>
          let i := common_prefix_len p seg in
          if (i <? String.length seg)%nat then
            let lower_half :=
              Node (string_drop i seg) StaticNode val fpat pr ch hw in
            match string_drop i p with
            | EmptyString =>
                Ok (Node (string_take i seg) k v fp (S pr) [lower_half] false)
            | p' =>
                append_child (string_take i seg) k nil_value EmptyString pr
                  [lower_half] p' fp v
            end
          else descend (string_drop i p)
      end
  end.

Definition insert_route (root : node U) (pattern : string) (v : any U)
  : string + node U :=
  match insert root pattern pattern v with
  | Ok root' => inr root'
  | Panic p => inl (panic_message p)
  end.

(** Rule of section 4.3 for a walk that stops on a node without value
    with nothing left to read: exactly one child whose segment is ['/']
    holds a value. Section 8 lets a catch-all child count (looking up
    [/files] under [/files/*rest] may flag the redirect): its segment
    opens with the ['/'] the toggled path would add. *)
Definition slash_child (c : node U) : bool :=
  holds_value c
  && (String.eqb (segment c) "/"
      || (match nkind c with CatchAllNode => true | _ => false end
          && first_byte_is "/" (segment c))).

Definition slash_child_flag (ch : list (node U)) : bool :=
  Nat.eqb (List.length (filter slash_child ch)) 1.

(** Modelled from the spec: section 4.3, lookup ([node.getValue] of
    [tree.go] is missing). The walk consumes [path] against the segment
    of [n]; [ps] holds the captures made so far.

    The flag follows the two rules of section 4.3, both for a walk that
    stops at the end of a segment: nothing is left to read and the node
    holds no value ([slash_child_flag]), or what is left is exactly ['/']
    and the node holds a value. A static node whose segment is not a
    prefix of what is left fails the branch, with no flag. *)
Fixpoint lookup (n : node U) (path : string) (ps : Params) {struct n}
  : any U * Params * bool :=
  match n with
  | Node seg k val _ _ ch hw =>
      let continue := fun (rest : string) (ps : Params) =>
        match rest with
        | EmptyString =>
            if is_nil val then (nil_value, [], slash_child_flag ch)
            else (val, ps, false)
        | _ =>
            let r :=
              if hw then
                match ch with
                | [c] => lookup c rest ps
                | _ => (nil_value, [], false)
                end
              else
                (fix pick (cs : list (node U)) : any U * Params * bool :=
                   match cs with
                   | [] => (nil_value, [], false)
                   | c :: cs' =>
                       if same_first_byte (segment c) rest
                       then lookup c rest ps
                       else pick cs'
                   end) ch in
            if is_nil (fst (fst r)) then
              (nil_value, [],
               snd r || (String.eqb rest "/" && negb (is_nil val)))
            else r
        end in
      match k with
      | CatchAllNode =>
          if first_byte_is "/" seg && negb (first_byte_is "/" path)
          then (nil_value, [], false)
          else (val, (ps ++ [mkParam (wildcard_name seg) path])%list, false)
      | ParameterNode =>
          let '(run, rest) := span_segment path in
          continue rest (ps ++ [mkParam (wildcard_name seg) run])%list
      | _ =>
          if String.prefix seg path
          then continue (string_drop (String.length seg) path) ps
          else (nil_value, [], false)
      end
  end.

(** Modelled from the spec: the lookup surface of section 6 behind the
    signature [router.go] calls [getValue] with. The buffer goes back as a
    nil pointer when nothing was captured (the tests of the router expect
    nil parameters for routes without wildcard). *)
Definition get_value (root : node U) (path : string) (paramsNew : option Z)
  : any U * option Params * bool :=
  let '(v, ps, tsr) := lookup root path [] in
  (v, match ps with [] => None | _ => Some ps end, tsr).

(** Modelled from the spec: section 4.4, the depth-first walk of the
    case-insensitive recovery ([node.findCaseInsensitivePath] of
    [tree.go] is missing). The answer is rebuilt from the stored
    segments; a wildcard has no stored bytes to compare with and keeps
    the bytes of the input. *)
Fixpoint ci_walk (n : node U) (path : string) {struct n} : option string :=
  match n with
  | Node seg k val _ _ ch _ =>
      let continue := fun (rest : string) =>
        match rest with
        | EmptyString => if is_nil val then None else Some EmptyString
        | _ =>
            (fix first (cs : list (node U)) : option string :=
               match cs with
               | [] => None
               | c :: cs' =>
                   match ci_walk c rest with
                   | Some s => Some s
                   | None => first cs'
                   end
               end) ch
        end in
      match k with
      | CatchAllNode =>
          if first_byte_is "/" seg && negb (first_byte_is "/" path)
          then None
          else if is_nil val then None else Some path
      | ParameterNode =>
          let '(run, rest) := span_segment path in
          match continue rest with
          | Some s => Some (run +:+ s)
          | None => None
          end
      | _ =>
          if ci_prefix seg path then
            match continue (string_drop (String.length seg) path) with
            | Some s => Some (seg +:+ s)
            | None => None
            end
          else None
      end
  end.

(** Modelled from the spec: section 4.4, the recovery contract: when the
    walk fails and the adjustment is allowed, it is retried with the
    trailing slash toggled. *)
Definition find_case_insensitive (root : node U) (path : string)
    (allowTrailingSlashAdjust : bool) : string * bool :=
  match ci_walk root path with
  | Some s => (s, true)
  | None =>
      if allowTrailingSlashAdjust then
        match ci_walk root (toggle_slash path) with
        | Some s => (s, true)
        | None => (EmptyString, false)
        end
      else (EmptyString, false)
  end.

End Engine.

(** *** The path normaliser *)

(** The pieces of [p] between its separators. *)
Fixpoint split_slash (p : string) (acc : string) : list string :=
  match p with
  | EmptyString => [acc]
  | String c rest =>
      if Ascii.eqb c "/" then acc :: split_slash rest EmptyString
      else split_slash rest (acc +:+ String c EmptyString)
  end.

(** Resolved segments are kept innermost first. *)
Definition resolve (stack : list string) (seg : string) : list string :=
  if String.eqb seg EmptyString || String.eqb seg "." then stack
  else if String.eqb seg ".." then tl stack
  else seg :: stack.

Definition join_segments (segs : list string) : string :=
  fold_right (fun seg out => "/" +:+ seg +:+ out) EmptyString segs.

(** Modelled from the spec: section 4.1, the path normaliser ([CleanPath]
    of [path.go] is missing). *)
Definition normalize (p : string) : string :=
  if first_byte_is "/" p then
    match fold_left resolve (split_slash p EmptyString) [] with
    | [] => "/"
    | stack =>
        if ends_with_slash p then join_segments (rev stack) +:+ "/"
        else join_segments (rev stack)
    end
  else "/".

Lemma count_params_uint16 (p : string) :
  0 <= count_params p < uint16_modulus.
Proof. unfold count_params. apply Z.mod_pos_bound. reflexivity. Qed.

(** The tree of the specification behind the interface of the router. *)
Definition engine (U : Type) : Engine U :=
  Build_Engine U (node U) empty_root insert_route get_value
    find_case_insensitive normalize count_params count_params_uint16.

End Trie.

(** ** Concrete routers

    The routers of the test-suite, built on the tree of module [Trie] with
    string payloads. *)
Module Fixtures.

#[local] Existing Instance Trie.engine.

Definition register (acc : result (Router string))
    (route : string * string * string) : result (Router string) :=
  let '(method, path, v) := route in
  r <- acc ;; Add r method path (user_value v).

Definition routes (opts : list Option_)
    (l : list (string * string * string)) : result (Router string) :=
  fold_left register l (Ok (New opts)).

Definition router_of (r : result (Router string)) : Router string :=
  match r with
  | Ok r => r
  | Panic _ => New []
  end.

Definition returned {A : Type} (x : result A) : bool :=
  match x with
  | Ok _ => true
  | Panic _ => false
  end.

Definition no_panic {A : Type} (x : string + A) : bool :=
  match x with
  | inr _ => true
  | inl _ => false
  end.

Definition tree_grown (x : string + Trie.node string) : Trie.node string :=
  match x with
  | inr root' => root'
  | inl _ => Trie.empty_root
  end.

(** A router on which one request is rewritten twice: [/a/] stops on the
    node of [a/], which holds no value and has the child [/] of [/a//]. *)
Definition chain_router : Router string :=
  router_of (routes [] [("GET", "/a//", "/a//"); ("GET", "/a/x", "/a/x");
                        ("GET", "/A", "/A")]).

(** [TestRouterRedirect] *)
Definition redirect_router : Router string :=
  router_of (routes [] [("GET", "/path", "/path"); ("GET", "/dir/", "/dir/");
                        ("GET", "/", "/")]).

(** A router with a CONNECT route, as [Router.Any] registers one. *)
Definition connect_router : Router string :=
  router_of (routes [] [("CONNECT", "/path", "tunnel")]).

(** [TestRouterMatchedRoutePath] *)
Definition saving_router : Router string :=
  router_of (routes [WithSaveMatchedRoutePath]
               [("GET", "/user/:name", "handle1");
                ("GET", "/user/:name/details", "handle2");
                ("GET", "/", "handle3")]).

(** [TestRouterEnableSaveMatchedRouterPathPanicShouldNotHappen]: the route
    is registered first, the mode is switched on afterwards. *)
Definition late_saving_router : Router string :=
  let r := router_of (routes [] [("GET", "/user/:name", "handle1")]) in
  mkRouter (trees r) (paramsNew r) (maxParams r)
    (WithSaveMatchedRoutePath (options r)).

(** One more route for the router of [TestRouterMatchedRoutePath]. *)
Definition about_route : result (Router string) :=
  Add saving_router "GET" "/about" (user_value "handle4").

(** [TestParams] *)
Definition test_params : Params :=
  [mkParam "param1" "value1"; mkParam "param2" "value2";
   mkParam "param3" "value3"].

Fixpoint repeat_string (n : nat) (s : string) : string :=
  match n with
  | O => EmptyString
  | S n' => s +:+ repeat_string n' s
  end.

(** A pattern with 65535 parameters: [/:a/:a/.../:a]. *)
Definition wide_pattern : string := repeat_string (Z.to_nat 65535) "/:a".

(** A new router in save-matched-route-path mode, and what registering
    [wide_pattern] on it asks of the tree. *)
Definition saving_new : Router string := New [WithSaveMatchedRoutePath].

Definition wide_value : any string := user_value "v".

Definition wide_tree : string + Trie.node string :=
  addRoute (tree_of saving_new "GET") wide_pattern
    (matchValue wide_pattern wide_value).

Definition pattern_of (r : result (Pattern string)) : Pattern string :=
  match r with
  | Ok r => r
  | Panic _ => NewPattern []
  end.

(** A pattern matcher that knows [/path] only. *)
Definition path_pattern : Pattern string :=
  pattern_of (Pattern_Add (NewPattern []) "/path" (user_value "/path")).

(** Routers and patterns built by sequences of registrations. *)
Definition any_of (v : string) : any string := user_value v.

Definition redirect_routes : list (string * string * any string) :=
  [("GET", "/path", any_of "/path"); ("GET", "/dir/", any_of "/dir/");
   ("GET", "/", any_of "/")].

Definition listed_router : Router string :=
  router_of (Add_all (New []) redirect_routes).

(** [TestRouterDisableRedirect] *)
Definition plain_router : Router string :=
  router_of (Add_all (New [WithDisableRedirectFixedPath;
                           WithDisableRedirectTrailingSlash])
               redirect_routes).

(** [TestRouterMatchedRoutePath], as a sequence. *)
Definition saving_routes : list (string * string * any string) :=
  [("GET", "/user/:name", any_of "handle1");
   ("GET", "/user/:name/details", any_of "handle2");
   ("GET", "/", any_of "handle3")].

Definition saving_listed_router : Router string :=
  router_of (Add_all saving_new saving_routes).

(** [TestRouterMatchURL] *)
Definition name_router : Router string :=
  router_of (Add (New []) "GET" "/GET/:name" (any_of "get")).

(** [TestRouterMach]: the route registered by [Any]. *)
Definition any_router : Router string :=
  router_of (Any (New []) "/ANY" (any_of "any")).

(** One route for GET and one for POST. *)
Definition two_method_router : Router string :=
  router_of (r1 <- Add (New []) "GET" "/a" (any_of "a") ;;
             Add r1 "POST" "/b" (any_of "b")).

(** [TestPatternMatchedRoutePath]: one route of it. *)
Definition saving_pattern : Pattern string :=
  pattern_of (Pattern_Add (NewPattern [WithSaveMatchedRoutePath])
                "/user/:name" (any_of "handle1")).

(** A pattern registered before the mode is switched on, as in
    [TestPatternEnableSaveMatchedRouterPathPanicShouldNotHappen]. *)
Definition late_saving_pattern : Pattern string :=
  let p := pattern_of (Pattern_Add (NewPattern []) "/user/:name"
                         (any_of "handle1")) in
  mkPattern (root p) (WithSaveMatchedRoutePath (pattern_options p)).

End Fixtures.

(** * Properties *)

(** ** Parameter access *)

Lemma Params_Param_skip (before rest : Params) (name : string) :
  Forall (fun q => Key q <> name) before ->
  Params_Param (before ++ rest) name = Params_Param rest name.
Proof.
  induction 1 as [|q before Hq _ IH]; simpl; [reflexivity|].
  destruct (String.eqb_spec (Key q) name) as [Heq|_]; [contradiction|exact IH].
Qed.

(** C4. [ps.Param(name)] is the value of the first pair of [ps] whose key is
    [name], and the empty string when no pair of [ps] has that key. *)
Theorem Params_Param_first_match (ps : Params) (name : string) :
  (forall before p after,
      ps = (before ++ p :: after)%list ->
      Forall (fun q => Key q <> name) before ->
      Key p = name ->
      Params_Param ps name = Value p)
  /\ (Forall (fun q => Key q <> name) ps -> Params_Param ps name = EmptyString).
Proof.
  split.
  - intros before p after -> Hbefore Hkey.
    rewrite (Params_Param_skip _ _ _ Hbefore). simpl.
    destruct (String.eqb_spec (Key p) name); [reflexivity|contradiction].
  - intros Hnone.
    rewrite <- (app_nil_r ps). rewrite (Params_Param_skip _ _ _ Hnone).
    reflexivity.
Qed.

Lemma Params_Param_first_match_witness :
  Params_Param Fixtures.test_params "param2" = "value2"
  /\ Params_Param Fixtures.test_params "noKey" = EmptyString.
Proof.
  split.
  - apply (proj1 (Params_Param_first_match Fixtures.test_params "param2")
             [mkParam "param1" "value1"] (mkParam "param2" "value2")
             [mkParam "param3" "value3"]).
    + reflexivity.
    + repeat constructor; simpl; discriminate.
    + reflexivity.
  - apply (proj2 (Params_Param_first_match Fixtures.test_params "noKey")).
    repeat constructor; simpl; discriminate.
Defined.

(** ** Registration *)


Lemma path_check_spec (path : string) :
  (len path <? 1) || negb (byte_is path 0 "/") = false <->
  begins_with_slash path.
Proof.
  unfold begins_with_slash, byte_is, len.
  destruct path as [|c rest].
  - simpl. split; discriminate.
  - assert (Hlen : (Z.of_nat (String.length (String c rest)) <? 1) = false)
      by (apply Z.ltb_ge; simpl String.length; lia).
    rewrite Hlen. simpl.
    destruct (Ascii.eqb_spec c "/") as [->|Hne]; simpl.
    + split; reflexivity.
    + split; [discriminate|]. intros [= Hc]. contradiction.
Qed.

Lemma is_nil_spec {U : Type} (value : any U) :
  is_nil value = true <-> value = nil_value.
Proof. destruct value; simpl; split; congruence. Qed.

Section Registration.

Context {U : Type} {E : Engine U}.


(** [Add] once its three guards are passed. *)
Lemma Add_guarded (r : Router U) (method path : string) (value : any U) :
  method <> EmptyString -> begins_with_slash path -> value <> nil_value ->
  Add r method path value =
    match
      addRoute (tree_of r method) path
        (stored_value (saveMatchedRoutePath (options r)) path value)
    with
    | inl msg => Panic (PanicTree msg)
    | inr root' =>
        let total :=
          uint16_add (countParams path)
            (synthetic_params (saveMatchedRoutePath (options r))) in
        let maxParams' :=
          if total >? maxParams r then total else maxParams r in
        Ok (mkRouter (<[method := root']> (trees r))
              (if negb (paramsNew r) && (maxParams' >? 0) then true
               else paramsNew r)
              maxParams' (options r))
    end.
Proof.
  intros Hm Hp Hv. unfold Add, tree_of, stored_value, synthetic_params.
  destruct (String.eqb_spec method EmptyString) as [|_]; [contradiction|].
  apply path_check_spec in Hp. rewrite Hp.
  destruct (is_nil value) eqn:Hnil; [apply is_nil_spec in Hnil; contradiction|].
  destruct (saveMatchedRoutePath (options r)); simpl;
    destruct (addRoute _ path _); reflexivity.
Qed.

Lemma Pattern_Add_guarded (r : Pattern U) (path : string) (value : any U) :
  begins_with_slash path -> value <> nil_value ->
  Pattern_Add r path value =
    match
      addRoute (root r) path
        (stored_value (saveMatchedRoutePath (pattern_options r)) path value)
    with
    | inl msg => Panic (PanicTree msg)
    | inr root' => Ok (mkPattern root' (pattern_options r))
    end.
Proof.
  intros Hp Hv. unfold Pattern_Add, stored_value.
  apply path_check_spec in Hp. rewrite Hp.
  destruct (is_nil value) eqn:Hnil; [apply is_nil_spec in Hnil; contradiction|].
  destruct (saveMatchedRoutePath (pattern_options r)); simpl;
    destruct (addRoute _ path _); reflexivity.
Qed.

Lemma Add_method_panic_iff
    (r : Router U) (method path : string) (value : any U) :
  Add r method path value = Panic PanicMethodEmpty <-> method = EmptyString.
Proof.
  unfold Add.
  destruct (String.eqb_spec method EmptyString) as [->|Hne];
    [split; reflexivity|].
  split; [|contradiction]. intros H. exfalso.
  destruct ((len path <? 1) || negb (byte_is path 0 "/")); [discriminate|].
  destruct (is_nil value); [discriminate|].
  destruct (saveMatchedRoutePath (options r));
    destruct (addRoute _ path _); discriminate.
Qed.

(** C9. [Router.Add] panics with "method must not be empty" exactly when
    the method string is empty, whatever the pattern and the value; the
    verb shortcuts pass a non-empty method and never raise it. *)
Theorem Add_method_must_not_be_empty
    (r : Router U) (method path : string) (value : any U) :
  Add r EmptyString path value = Panic PanicMethodEmpty
  /\ (Add r method path value = Panic PanicMethodEmpty <-> method = EmptyString)
  /\ Forall (fun add : Router U -> string -> any U -> result (Router U) =>
               add r path value <> Panic PanicMethodEmpty)
       [GET; HEAD; OPTIONS; POST; PUT; PATCH; DELETE].
Proof.
  split; [apply Add_method_panic_iff; reflexivity|].
  split; [apply Add_method_panic_iff|].
  repeat constructor;
    unfold GET, HEAD, OPTIONS, POST, PUT, PATCH, DELETE;
    intros H; apply Add_method_panic_iff in H; discriminate.
Qed.

(** C3. [Add], on a router or on a pattern, panics when the pattern is
    empty or does not begin with ['/'] or when the value is nil; when the
    pattern begins with ['/'] and the value is not nil, neither call raises
    the pattern panic or the value panic. *)
Theorem Add_preconditions
    (r : Router U) (p : Pattern U) (method path : string) (value : any U) :
  (~ begins_with_slash path \/ value = nil_value ->
     (exists q, Add r method path value = Panic q
                /\ (q = PanicMethodEmpty \/ precondition_panic q))
     /\ (exists q, Pattern_Add p path value = Panic q /\ precondition_panic q))
  /\ (begins_with_slash path -> value <> nil_value ->
        (forall q, Add r method path value = Panic q -> ~ precondition_panic q)
        /\ (forall q, Pattern_Add p path value = Panic q ->
                      ~ precondition_panic q)).
Proof.
  split.
  - intros Hbad. unfold Add, Pattern_Add.
    destruct ((len path <? 1) || negb (byte_is path 0 "/")) eqn:Hpath.
    + split.
      * destruct (String.eqb method EmptyString);
          [exists PanicMethodEmpty|exists (PanicPath path)]; simpl; auto.
      * exists (PanicPath path). simpl. auto.
    + apply path_check_spec in Hpath.
      destruct Hbad as [Hbad| ->]; [contradiction|]. simpl. split.
      * destruct (String.eqb method EmptyString);
          [exists PanicMethodEmpty|exists PanicValueNil]; simpl; auto.
      * exists PanicValueNil. simpl. auto.
  - intros Hp Hv. split.
    + intros q. destruct (String.eqb_spec method EmptyString) as [->|Hm].
      * rewrite (proj2 (Add_method_panic_iff r EmptyString path value)
                   eq_refl).
        intros [= <-]. simpl. tauto.
      * rewrite (Add_guarded r method path value Hm Hp Hv).
        destruct (addRoute _ path _); intros [= <-]. simpl. tauto.
    + intros q. rewrite (Pattern_Add_guarded p path value Hp Hv).
      destruct (addRoute _ path _); intros [= <-]. simpl. tauto.
Qed.

End Registration.

(** ** Lookup and match *)

Section Matching.

Context {U : Type} {E : Engine U}.


Lemma match_body_no_tree (r : Router U) (method path : string)
    (pn : option Z) :
  trees r !! method = None ->
  match_body r method path pn = Ok (Return no_match).
Proof. intros H. unfold match_body. rewrite H. reflexivity. Qed.

Lemma match_body_hit (r : Router U) (method path : string) (pn : option Z)
    (root : node) (value : any U) (ps : option Params) (tsr : bool) :
  trees r !! method = Some root ->
  getValue root path pn = (value, ps, tsr) ->
  is_nil value = false ->
  match_body r method path pn =
    (a <- deliver (saveMatchedRoutePath (options r)) value ps ;; Ok (Return a)).
Proof.
  intros Ht Hg Hv. unfold match_body. rewrite Ht, Hg, Hv. reflexivity.
Qed.

Lemma match_body_miss (r : Router U) (method path : string) (pn : option Z)
    (root : node) (ps : option Params) (tsr : bool) :
  trees r !! method = Some root ->
  getValue root path pn = (nil_value, ps, tsr) ->
  match_body r method path pn =
    if negb (String.eqb method MethodConnect) && negb (String.eqb path "/")
    then
      if tsr && redirectTrailingSlash (options r) then
        Ok (Again (toggle_slash path))
      else if redirectFixedPath (options r) then
        let '(fixedPath, found) :=
          findCaseInsensitivePath root (CleanPath path)
            (redirectTrailingSlash (options r)) in
        if found then Ok (Again fixedPath) else Ok (Return no_match)
      else Ok (Return no_match)
    else Ok (Return no_match).
Proof. intros Ht Hg. unfold match_body. rewrite Ht, Hg. reflexivity. Qed.

Lemma match_hit (r : Router U) (method path : string) (pn : option Z)
    (root : node) (value : any U) (ps : option Params) (tsr : bool)
    (fuel : nat) :
  trees r !! method = Some root ->
  getValue root path pn = (value, ps, tsr) ->
  is_nil value = false ->
  match_ (S fuel) r method path pn
    = Some (deliver (saveMatchedRoutePath (options r)) value ps)
  /\ redirects (S fuel) r method path pn = [].
Proof.
  intros Ht Hg Hv. simpl.
  rewrite (match_body_hit r method path pn root value ps tsr Ht Hg Hv).
  destruct (deliver _ value ps); simpl; split; reflexivity.
Qed.

(** C10. For the method CONNECT and for the path ["/"], a miss of the tree
    is final whatever the redirect options: [match] answers
    [(nil, nil, false)] and makes no redirect; [Pattern.MatchURL] does the
    same for the path ["/"]. *)
Theorem no_redirect_for_connect_or_root
    (r : Router U) (p : Pattern U) (method path : string) (pn : option Z)
    (fuel : nat) :
  (method = MethodConnect \/ path = "/" ->
   (forall root, trees r !! method = Some root ->
                 fst (fst (getValue root path pn)) = nil_value) ->
   match_ (S fuel) r method path pn = Some (Ok no_match)
   /\ redirects (S fuel) r method path pn = [])
  /\ (fst (fst (getValue (root p) "/" None)) = nil_value ->
      Pattern_MatchURL (S fuel) p "/" = Some (Ok (nil_value, EmptyString, false))).
Proof.
  split.
  - intros Hexempt Hmiss. simpl.
    destruct (trees r !! method) as [root|] eqn:Ht.
    + specialize (Hmiss root eq_refl).
      destruct (getValue root path pn) as [[value ps] tsr] eqn:Hg.
      simpl in Hmiss. subst value.
      rewrite (match_body_miss r method path pn root ps tsr Ht Hg).
      destruct Hexempt as [-> | ->].
      * simpl. split; reflexivity.
      * rewrite andb_comm. simpl. split; reflexivity.
    + rewrite (match_body_no_tree r method path pn Ht). split; reflexivity.
  - intros Hmiss. simpl. unfold Pattern_MatchURL_body.
    destruct (getValue (root p) "/" None) as [[value ps] tsr].
    simpl in Hmiss. subst value. reflexivity.
Qed.

(** C5, as the code has it. Finding nothing is an ordinary result.
    [Lookup] answers [(nil, nil, false)] for a method without tree and for
    a miss of the tree without the trailing-slash flag, and leaves the
    router as it was. [match] answers [(nil, nil, false)] for a method
    without tree, and for such a miss when the fixed-path correction does
    not apply (the method is CONNECT, the path is ["/"] or the correction
    is disabled) or finds no corrected path. *)
Theorem no_match_is_a_result
    (r : Router U) (method path : string) (pn : option Z) (fuel : nat) :
  (trees r !! method = None ->
   Lookup r method path = (no_match, r)
   /\ match_ (S fuel) r method path pn = Some (Ok no_match))
  /\ (forall root ps,
        trees r !! method = Some root ->
        getValue root path (paramsNew_of r) = (nil_value, ps, false) ->
        Lookup r method path = (no_match, r))
  /\ (forall root ps,
        trees r !! method = Some root ->
        getValue root path pn = (nil_value, ps, false) ->
        method = MethodConnect
        \/ path = "/"
        \/ redirectFixedPath (options r) = false
        \/ snd (findCaseInsensitivePath root (CleanPath path)
                  (redirectTrailingSlash (options r))) = false ->
        match_ (S fuel) r method path pn = Some (Ok no_match)).
Proof.
  split; [|split].
  - intros Ht. split.
    + unfold Lookup. rewrite Ht. reflexivity.
    + simpl. rewrite (match_body_no_tree r method path pn Ht). reflexivity.
  - intros root ps Ht Hg. unfold Lookup. rewrite Ht, Hg. reflexivity.
  - intros root ps Ht Hg Hfix. simpl.
    rewrite (match_body_miss r method path pn root ps false Ht Hg).
    destruct (String.eqb_spec method MethodConnect) as [Hm|Hm];
      [reflexivity|].
    destruct (String.eqb_spec path "/") as [Hp|Hp]; [reflexivity|].
    simpl.
    destruct Hfix as [Hfix|[Hfix|[Hfix|Hfix]]];
      [contradiction|contradiction| |].
    + rewrite Hfix. reflexivity.
    + destruct (redirectFixedPath (options r)); [|reflexivity].
      destruct (findCaseInsensitivePath root (CleanPath path) _)
        as [fixed found].
      simpl in Hfix. subst found. reflexivity.
Qed.

End Matching.

(** ** Save-matched-route-path mode, redirects, capacity *)

Section Policy.

Context {U : Type} {E : Engine U}.

Lemma Add_returns (r r' : Router U) (method path : string) (value : any U) :
  Add r method path value = Ok r' ->
  method <> EmptyString /\ begins_with_slash path /\ value <> nil_value.
Proof.
  unfold Add. intros H.
  destruct (String.eqb_spec method EmptyString) as [|Hm]; [discriminate|].
  destruct ((len path <? 1) || negb (byte_is path 0 "/")) eqn:Hp;
    [discriminate|].
  destruct (is_nil value) eqn:Hv; [discriminate|].
  split; [exact Hm|]. split; [apply path_check_spec; exact Hp|].
  intros ->. discriminate.
Qed.

(** C2. With save-matched-route-path enabled, [Add] hands the tree the pair
    of the pattern and the value; a match on such a pair returns the inner
    value and appends the pattern, under the key [MatchedRoutePathParam],
    after the captured parameters; a match on a value that is not such a
    pair panics. *)
Theorem save_matched_route_path
    (r : Router U) (method path : string) (pn : option Z) (fuel : nat) :
  saveMatchedRoutePath (options r) = true ->
  (forall value r',
      Add r method path value = Ok r' ->
      exists root',
        addRoute (tree_of r method) path (matchValue path value) = inr root'
        /\ trees r' = <[method := root']> (trees r))
  /\ (forall root matchedPath v ps tsr,
        trees r !! method = Some root ->
        getValue root path pn = (matchValue matchedPath v, ps, tsr) ->
        match_ (S fuel) r method path pn =
          Some (Ok (v,
                    Some (elems ps
                          ++ [mkParam MatchedRoutePathParam matchedPath]),
                    true)))
  /\ (forall root value ps tsr,
        trees r !! method = Some root ->
        getValue root path pn = (value, ps, tsr) ->
        value <> nil_value ->
        (forall matchedPath v, value <> matchValue matchedPath v) ->
        match_ (S fuel) r method path pn = Some (Panic PanicNotMatchValue)).
Proof.
  intros Hsave. split; [|split].
  - intros value r' Hadd.
    destruct (Add_returns r r' method path value Hadd) as (Hm & Hp & Hv).
    rewrite (Add_guarded r method path value Hm Hp Hv) in Hadd.
    rewrite Hsave in Hadd. simpl in Hadd.
    destruct (addRoute (tree_of r method) path (matchValue path value))
      as [msg|root']; [discriminate|].
    exists root'. split; [reflexivity|].
    injection Hadd as <-. reflexivity.
  - intros root matchedPath v ps tsr Ht Hg.
    rewrite (proj1 (match_hit r method path pn root _ ps tsr fuel Ht Hg
                      eq_refl)).
    rewrite Hsave. destruct ps; reflexivity.
  - intros root value ps tsr Ht Hg Hnil Hplain.
    assert (Hv : is_nil value = false)
      by (destruct value; [contradiction|reflexivity|reflexivity]).
    rewrite (proj1 (match_hit r method path pn root value ps tsr fuel Ht Hg
                      Hv)).
    rewrite Hsave. destruct value as [|u|matchedPath v]; simpl;
      [reflexivity|reflexivity|].
    exfalso. exact (Hplain matchedPath v eq_refl).
Qed.

(** C1, as the code has it. With both redirects enabled, a miss of the
    tree is final for the method CONNECT and for the path ["/"]: no match,
    no redirect. For any other method and path it is answered in the
    documented order: when the tree reported the trailing-slash flag the
    slash is toggled, otherwise the path is cleaned and the
    case-insensitive recovery asked. No rewritten path means no match and
    no redirect. A rewritten path is resolved through [Match], which
    applies the same policy to it: the redirects of the request are the
    rewritten path followed by the redirects of that [Match]. When the
    tree finds a value for the rewritten path, that value is the answer
    and the request has made exactly one redirect. *)
Theorem redirect_policy
    (r : Router U) (method path : string) (pn : option Z) (fuel : nat)
    (root : node) (ps : option Params) (tsr : bool) :
  redirectTrailingSlash (options r) = true ->
  redirectFixedPath (options r) = true ->
  trees r !! method = Some root ->
  getValue root path pn = (nil_value, ps, tsr) ->
  (method = MethodConnect \/ path = "/" ->
   match_ (S fuel) r method path pn = Some (Ok no_match)
   /\ redirects (S fuel) r method path pn = [])
  /\ (method <> MethodConnect ->
      path <> "/" ->
      match redirect_target root path tsr with
      | Some path' =>
          match_ (S fuel) r method path pn = Match fuel r method path'
          /\ redirects (S fuel) r method path pn
             = path' :: redirects fuel r method path' (paramsNew_of r)
          /\ (forall value' ps' tsr',
                getValue root path' (paramsNew_of r) = (value', ps', tsr') ->
                value' <> nil_value ->
                match_ (S (S fuel)) r method path pn
                  = Some (deliver (saveMatchedRoutePath (options r))
                            value' ps')
                /\ redirects (S (S fuel)) r method path pn = [path'])
      | None =>
          match_ (S fuel) r method path pn = Some (Ok no_match)
          /\ redirects (S fuel) r method path pn = []
      end).
Proof.
  intros Hts Hfp Ht Hg.
  pose proof (match_body_miss r method path pn root ps tsr Ht Hg) as Hmiss.
  split.
  - intros Hexempt. simpl. rewrite Hmiss.
    destruct Hexempt as [-> | ->].
    + simpl. split; reflexivity.
    + rewrite andb_comm. simpl. split; reflexivity.
  - intros Hm Hp.
    assert (Hbody : match_body r method path pn =
                    match redirect_target root path tsr with
                    | Some path' => Ok (Again path')
                    | None => Ok (Return no_match)
                    end).
    { rewrite Hmiss.
      destruct (String.eqb_spec method MethodConnect); [contradiction|].
      destruct (String.eqb_spec path "/"); [contradiction|].
      unfold redirect_target. rewrite Hts, Hfp. simpl.
      destruct tsr; simpl; [reflexivity|].
      destruct (findCaseInsensitivePath root (CleanPath path) true)
        as [fixed found].
      destruct found; reflexivity. }
    destruct (redirect_target root path tsr) as [path'|].
    + split; [|split].
      * simpl. rewrite Hbody. reflexivity.
      * simpl. rewrite Hbody. reflexivity.
      * intros value' ps' tsr' Hg' Hv'.
        assert (Hnil : is_nil value' = false)
          by (destruct value'; [contradiction|reflexivity|reflexivity]).
        destruct (match_hit r method path' (paramsNew_of r) root value' ps'
                    tsr' fuel Ht Hg' Hnil) as [Hres Hhops].
        split.
        -- change (match_ (S (S fuel)) r method path pn)
             with (match match_body r method path pn with
                   | Panic p => Some (Panic p)
                   | Ok (Return a) => Some (Ok a)
                   | Ok (Again p') =>
                       match_ (S fuel) r method p' (paramsNew_of r)
                   end).
           rewrite Hbody. exact Hres.
        -- change (redirects (S (S fuel)) r method path pn)
             with (match match_body r method path pn with
                   | Ok (Again p') =>
                       p' :: redirects (S fuel) r method p' (paramsNew_of r)
                   | _ => []
                   end).
           rewrite Hbody, Hhops. reflexivity.
    + simpl. rewrite Hbody. split; reflexivity.
Qed.

(** X13. [Pattern.MatchURL] follows the same order, without the CONNECT
    test: with both redirects enabled, a miss for a path other than ["/"]
    is resolved again on the toggled path when the tree reported the flag,
    else on the path the recovery corrected, and is no match when there is
    neither. *)
Lemma Pattern_redirect_policy
    (p : Pattern U) (path : string) (fuel : nat) (ps : option Params)
    (tsr : bool) :
  redirectTrailingSlash (pattern_options p) = true ->
  redirectFixedPath (pattern_options p) = true ->
  path <> "/" ->
  getValue (root p) path None = (nil_value, ps, tsr) ->
  match redirect_target (root p) path tsr with
  | Some path' => Pattern_MatchURL (S fuel) p path = Pattern_MatchURL fuel p path'
  | None =>
      Pattern_MatchURL (S fuel) p path
        = Some (Ok (nil_value, EmptyString, false))
  end.
Proof.
  intros Hts Hfp Hp Hg. simpl. unfold Pattern_MatchURL_body, redirect_target.
  rewrite Hg, Hts, Hfp. simpl.
  destruct (String.eqb_spec path "/"); [contradiction|]. simpl.
  destruct tsr; simpl; [reflexivity|].
  destruct (findCaseInsensitivePath (root p) (CleanPath path) true)
    as [fixed found].
  destruct found; reflexivity.
Qed.

(** X14. With save-matched-route-path enabled [Pattern.Add] hands the tree
    the pair of the pattern and the value; [Pattern.MatchURL] returns the
    inner value of such a pair with the pattern as its second result, and
    panics on a stored value that is not such a pair. *)
Lemma Pattern_save_matched_route_path
    (p : Pattern U) (path : string) (fuel : nat) :
  saveMatchedRoutePath (pattern_options p) = true ->
  (forall value p',
      Pattern_Add p path value = Ok p' ->
      addRoute (root p) path (matchValue path value) = inr (root p'))
  /\ (forall matchedPath v ps tsr,
        getValue (root p) path None = (matchValue matchedPath v, ps, tsr) ->
        Pattern_MatchURL (S fuel) p path = Some (Ok (v, matchedPath, true)))
  /\ (forall u ps tsr,
        getValue (root p) path None = (user_value u, ps, tsr) ->
        Pattern_MatchURL (S fuel) p path = Some (Panic PanicNotMatchValue)).
Proof.
  intros Hsave. split; [|split].
  - intros value p' Hadd. unfold Pattern_Add in Hadd.
    destruct ((len path <? 1) || negb (byte_is path 0 "/")); [discriminate|].
    destruct (is_nil value); [discriminate|].
    rewrite Hsave in Hadd.
    destruct (addRoute (root p) path (matchValue path value)) as [msg|root'];
      [discriminate|].
    injection Hadd as <-. reflexivity.
  - intros matchedPath v ps tsr Hg. simpl. unfold Pattern_MatchURL_body.
    rewrite Hg, Hsave. reflexivity.
  - intros u ps tsr Hg. simpl. unfold Pattern_MatchURL_body.
    rewrite Hg, Hsave. reflexivity.
Qed.

(** [maxParams] never goes down. *)
Lemma Add_maxParams_monotone
    (r r' : Router U) (method path : string) (value : any U) :
  Add r method path value = Ok r' -> maxParams r <= maxParams r'.
Proof.
  intros Hadd.
  destruct (Add_returns r r' method path value Hadd) as (Hm & Hp & Hv).
  rewrite (Add_guarded r method path value Hm Hp Hv) in Hadd.
  destruct (addRoute _ path _) as [msg|root']; [discriminate|].
  injection Hadd as <-. simpl.
  destruct (Z.gtb_spec
              (uint16_add (countParams path)
                 (synthetic_params (saveMatchedRoutePath (options r))))
              (maxParams r)); lia.
Qed.

(** As long as the sum fits a [uint16], [maxParams] covers the pattern
    just registered and its synthetic parameter. *)
Lemma Add_maxParams_covers
    (r r' : Router U) (method path : string) (value : any U) :
  Add r method path value = Ok r' ->
  countParams path + synthetic_params (saveMatchedRoutePath (options r))
    < uint16_modulus ->
  countParams path + synthetic_params (saveMatchedRoutePath (options r))
    <= maxParams r'.
Proof.
  intros Hadd Hfit.
  destruct (Add_returns r r' method path value Hadd) as (Hm & Hp & Hv).
  rewrite (Add_guarded r method path value Hm Hp Hv) in Hadd.
  destruct (addRoute _ path _) as [msg|root']; [discriminate|].
  injection Hadd as <-. simpl.
  pose proof (countParams_uint16 path) as Hc.
  assert (Hs : 0 <= synthetic_params (saveMatchedRoutePath (options r)))
    by (destruct (saveMatchedRoutePath (options r)); simpl; lia).
  unfold uint16_add. rewrite Z.mod_small by lia.
  destruct (Z.gtb_spec
              (countParams path
               + synthetic_params (saveMatchedRoutePath (options r)))
              (maxParams r)); lia.
Qed.

Lemma Add_options (r r' : Router U) (method path : string) (value : any U) :
  Add r method path value = Ok r' -> options r' = options r.
Proof.
  intros Hadd.
  destruct (Add_returns r r' method path value Hadd) as (Hm & Hp & Hv).
  rewrite (Add_guarded r method path value Hm Hp Hv) in Hadd.
  destruct (addRoute _ path _) as [msg|root']; [discriminate|].
  injection Hadd as <-. reflexivity.
Qed.

(** X11. After a sequence of successful registrations [maxParams] has not
    gone down, the options are unchanged, and [maxParams] covers every
    registered pattern whose count, synthetic parameter included, fits a
    [uint16]. *)
Lemma Add_all_maxParams
    (l : list (string * string * any U)) (r r' : Router U) :
  Add_all r l = Ok r' ->
  maxParams r <= maxParams r'
  /\ options r' = options r
  /\ (forall method path value,
        In (method, path, value) l ->
        countParams path + synthetic_params (saveMatchedRoutePath (options r))
          < uint16_modulus ->
        countParams path + synthetic_params (saveMatchedRoutePath (options r))
          <= maxParams r').
Proof.
  revert r. induction l as [|[[method path] value] rest IH]; intros r Hall.
  - injection Hall as <-. split; [lia|]. split; [reflexivity|].
    intros ? ? ? [].
  - simpl in Hall.
    destruct (Add r method path value) as [r1|q] eqn:Hadd; [|discriminate].
    simpl in Hall. destruct (IH r1 Hall) as (Hmono & Hopts & Hcover).
    pose proof (Add_maxParams_monotone r r1 method path value Hadd) as Hstep.
    pose proof (Add_options r r1 method path value Hadd) as Hsame.
    split; [lia|]. split; [congruence|].
    intros m p v [Hhead|Htail] Hfit.
    + injection Hhead as <- <- <-.
      pose proof (Add_maxParams_covers r r1 method path value Hadd Hfit).
      lia.
    + rewrite <- Hsame. apply (Hcover m p v Htail). rewrite Hsame. exact Hfit.
Qed.

(** C7 fails on the code. Registering a pattern of 65535 parameters in
    save-matched-route-path mode on a router whose [maxParams] is 0 adds
    65535 and 1 in [uint16]: the sum is 0, the update is skipped, and
    [maxParams] stays 0 although the pattern needs 65536 entries. *)
Theorem Add_maxParams_wraps_around
    (r : Router U) (method path : string) (value : any U) (root' : node) :
  saveMatchedRoutePath (options r) = true ->
  maxParams r = 0 ->
  countParams path = 65535 ->
  method <> EmptyString -> begins_with_slash path -> value <> nil_value ->
  addRoute (tree_of r method) path (matchValue path value) = inr root' ->
  exists r',
    Add r method path value = Ok r'
    /\ trees r' !! method = Some root'
    /\ maxParams r' = 0
    /\ maxParams r' < countParams path + 1.
Proof.
  intros Hsave Hmax Hcount Hm Hp Hv Hadd.
  rewrite (Add_guarded r method path value Hm Hp Hv).
  rewrite Hsave, Hmax, Hcount. simpl. rewrite Hadd.
  eexists. split; [reflexivity|]. simpl.
  split; [apply lookup_insert_eq|]. split; [reflexivity|lia].
Qed.

End Policy.

(** * Further properties of the router *)

(** ** Options *)

Lemma fold_options (l : list option_name) (o : Options) :
  fold_left (fun o opt => opt o) (map option_of l) o =
    mkOptions (saveMatchedRoutePath o || option_given SaveMatchedRoutePath l)
      (redirectTrailingSlash o
       && negb (option_given DisableRedirectTrailingSlash l))
      (redirectFixedPath o && negb (option_given DisableRedirectFixedPath l)).
Proof.
  revert o. induction l as [|n l IH]; intros [s t f].
  - simpl. rewrite orb_false_r, !andb_true_r. reflexivity.
  - simpl fold_left. simpl map. rewrite IH.
    destruct n, s, t, f; simpl; reflexivity.
Qed.

(** ** The trailing slash toggle *)

Lemma length_app_slash (q : string) :
  String.length (q +:+ "/") = S (String.length q).
Proof.
  induction q as [|c q IH]; simpl; [reflexivity|]. rewrite IH. reflexivity.
Qed.

Lemma get_app_slash (q : string) :
  String.get (String.length q) (q +:+ "/") = Some "/"%char.
Proof. induction q as [|c q IH]; simpl; [reflexivity|exact IH]. Qed.

Lemma substring_app_slash (q : string) :
  String.substring 0 (String.length q) (q +:+ "/") = q.
Proof.
  induction q as [|c q IH]; simpl; [reflexivity|]. rewrite IH. reflexivity.
Qed.

Lemma app_slash_slash (q : string) : (q +:+ "/") +:+ "/" = q +:+ "//".
Proof.
  induction q as [|d q IH]; [reflexivity|].
  change (String d ((q +:+ "/") +:+ "/") = String d (q +:+ "//")).
  rewrite IH. reflexivity.
Qed.

Lemma get_last_slash (path : string) :
  String.get (String.length path - 1) path = Some "/"%char ->
  exists q, path = q +:+ "/".
Proof.
  induction path as [|c rest IH]; simpl; [discriminate|].
  destruct rest as [|d rest'].
  - simpl. intros [= ->]. exists EmptyString. reflexivity.
  - replace (String.length (String d rest') - 0)%nat
      with (S (String.length (String d rest') - 1))%nat by (simpl; lia).
    intros H. destruct (IH H) as [q Hq]. exists (String c q).
    rewrite Hq. reflexivity.
Qed.

(** A path of more than the slash loses its trailing slash. *)
Lemma toggle_slash_strips (q : string) :
  q <> EmptyString -> toggle_slash (q +:+ "/") = q.
Proof.
  intros Hq. unfold toggle_slash, len, byte_is, slice_to.
  rewrite length_app_slash.
  replace (Z.to_nat (Z.of_nat (S (String.length q)) - 1)) with (String.length q)
    by lia.
  rewrite get_app_slash, substring_app_slash.
  destruct q as [|c q']; [contradiction|].
  replace (1 <? Z.of_nat (S (String.length (String c q')))) with true
    by (symmetry; apply Z.ltb_lt; simpl String.length; lia).
  reflexivity.
Qed.

(** A path without trailing slash gains one. *)
Lemma toggle_slash_appends (path : string) :
  (forall q, path <> q +:+ "/") -> toggle_slash path = path +:+ "/".
Proof.
  intros Hnot. unfold toggle_slash, len, byte_is.
  destruct (1 <? Z.of_nat (String.length path)) eqn:Hlen; [|reflexivity].
  simpl.
  replace (Z.to_nat (Z.of_nat (String.length path) - 1))
    with (String.length path - 1)%nat by lia.
  destruct (String.get (String.length path - 1) path) as [c|] eqn:Hget;
    [|reflexivity].
  destruct (Ascii.eqb_spec c "/") as [->|_]; [|reflexivity].
  destruct (get_last_slash path Hget) as [q Hq]. exfalso. exact (Hnot q Hq).
Qed.

Lemma ends_with_slash_dec (path : string) :
  (exists q, path = q +:+ "/") \/ (forall q, path <> q +:+ "/").
Proof.
  induction path as [|c rest IH].
  - right. intros [|d q]; simpl; [discriminate|discriminate].
  - destruct IH as [[q ->]|Hnot].
    + left. exists (String c q). reflexivity.
    + destruct rest as [|d rest'].
      * destruct (Ascii.eqb_spec c "/") as [->|Hc].
        -- left. exists EmptyString. reflexivity.
        -- right. intros [|e q]; simpl.
           ++ intros [= H1]. contradiction.
           ++ intros [= _ H2]. destruct q; discriminate.
      * right. intros [|e q]; simpl; [discriminate|].
        intros [= _ H]. exact (Hnot q H).
Qed.

(** X4. The slash toggle of the redirect branch changes every path, the
    empty one included, and on a non-empty path that does not end in two
    slashes it undoes itself: toggling twice gives the path back. *)
Theorem toggle_slash_round_trip (path : string) :
  toggle_slash path <> path
  /\ (path <> EmptyString ->
      (forall q, path <> q +:+ "//") ->
      toggle_slash (toggle_slash path) = path).
Proof.
  assert (Hgrow : forall p, p +:+ "/" <> p).
  { intros p H. apply (f_equal String.length) in H.
    rewrite length_app_slash in H. lia. }
  destruct (ends_with_slash_dec path) as [[q ->]|Hnot].
  - destruct q as [|c q'].
    + simpl. split; [discriminate|reflexivity].
    + rewrite toggle_slash_strips by discriminate. split.
      * intros H. exact (Hgrow _ (eq_sym H)).
      * intros _ Hdouble.
        apply toggle_slash_appends. intros q Hq. apply (Hdouble q).
        rewrite Hq. apply app_slash_slash.
  - rewrite (toggle_slash_appends path Hnot). split; [apply Hgrow|].
    intros Hne _. apply toggle_slash_strips. exact Hne.
Qed.

Lemma gtb_max (x a : Z) : (if x >? a then x else a) = Z.max a x.
Proof. destruct (Z.gtb_spec x a); lia. Qed.

Section Coverage.

Context {U : Type} {E : Engine U}.

(** X1. The options act on one field each: whatever their order and however
    often they are given, a new router or pattern saves the matched route
    path exactly when [WithSaveMatchedRoutePath] is given, and keeps each
    redirect exactly when its disabling option is not given. *)
Theorem options_are_independent (l : list option_name) :
  options (New (map option_of l) : Router U)
    = mkOptions (option_given SaveMatchedRoutePath l)
        (negb (option_given DisableRedirectTrailingSlash l))
        (negb (option_given DisableRedirectFixedPath l))
  /\ pattern_options (NewPattern (map option_of l) : Pattern U)
     = options (New (map option_of l) : Router U).
Proof.
  split; [|reflexivity]. simpl. unfold apply_options.
  rewrite fold_options. reflexivity.
Qed.

(** ** Registration *)

Lemma Add_grows (r r' : Router U) (method path : string) (value : any U) :
  Add r method path value = Ok r' ->
  exists root',
    addRoute (tree_of r method) path
      (stored_value (saveMatchedRoutePath (options r)) path value) = inr root'
    /\ trees r' = <[method := root']> (trees r)
    /\ options r' = options r.
Proof.
  intros Hadd.
  destruct (Add_returns r r' method path value Hadd) as (Hm & Hp & Hv).
  rewrite (Add_guarded r method path value Hm Hp Hv) in Hadd.
  destruct (addRoute _ path _) as [msg|root']; [discriminate|].
  exists root'. split; [reflexivity|]. injection Hadd as <-. split; reflexivity.
Qed.

Lemma Add_all_trees (l : list (string * string * any U)) (r r' : Router U)
    (m : string) :
  Add_all r l = Ok r' ->
  (is_Some (trees r' !! m) <->
   is_Some (trees r !! m) \/ exists path value, In (m, path, value) l)
  /\ ((forall path value, ~ In (m, path, value) l) ->
      trees r' !! m = trees r !! m).
Proof.
  revert r. induction l as [|[[method path] value] rest IH]; intros r Hall.
  - injection Hall as <-. split; [|reflexivity].
    split; [auto|]. intros [H|(p & v & [])]. exact H.
  - simpl in Hall.
    destruct (Add r method path value) as [r1|q] eqn:Hadd; [|discriminate].
    simpl in Hall. destruct (IH r1 Hall) as [Hiff Hsame].
    destruct (Add_grows r r1 method path value Hadd) as (root' & _ & Ht & _).
    split.
    + rewrite Hiff, Ht, lookup_insert_is_Some'. split.
      * intros [[<-|H]|(p & v & Hin)].
        -- right. exists path, value. left. reflexivity.
        -- left. exact H.
        -- right. exists p, v. right. exact Hin.
      * intros [H|(p & v & [Heq|Hin])].
        -- left. right. exact H.
        -- injection Heq as -> _ _. left. left. reflexivity.
        -- right. exists p, v. exact Hin.
    + intros Hnot. rewrite Hsame.
      * rewrite Ht. apply lookup_insert_ne. intros ->.
        apply (Hnot path value). left. reflexivity.
      * intros p v Hin. apply (Hnot p v). right. exact Hin.
Qed.

(** X2. Methods are registered apart. After any sequence of successful
    [Add] calls on a new router, a method has a tree exactly when one of the
    calls named it, and for a method no call named [Lookup] and [Match]
    find nothing, whatever was registered for other methods. *)
Theorem methods_are_registered_apart
    (opts : list Option_) (l : list (string * string * any U)) (r : Router U)
    (method path : string) (fuel : nat) :
  Add_all (New opts) l = Ok r ->
  (is_Some (trees r !! method) <-> exists p value, In (method, p, value) l)
  /\ ((forall p value, ~ In (method, p, value) l) ->
      Lookup r method path = (no_match, r)
      /\ Match (S fuel) r method path = Some (Ok no_match)).
Proof.
  intros Hall.
  destruct (Add_all_trees l (New opts) r method Hall) as [Hiff Hsame].
  split.
  - rewrite Hiff. simpl. rewrite lookup_empty. split.
    + intros [[x Hx]|H]; [discriminate|exact H].
    + intros H. right. exact H.
  - intros Hnot. specialize (Hsame Hnot). simpl in Hsame.
    rewrite lookup_empty in Hsame. split.
    + unfold Lookup. rewrite Hsame. reflexivity.
    + unfold Match. simpl. unfold match_body. rewrite Hsame. reflexivity.
Qed.

Lemma Add_allocator_invariant
    (r r' : Router U) (method path : string) (value : any U) :
  allocator_invariant r -> Add r method path value = Ok r' ->
  allocator_invariant r'.
Proof.
  intros [Hp Hrange] Hadd.
  destruct (Add_returns r r' method path value Hadd) as (Hm & Hpath & Hv).
  rewrite (Add_guarded r method path value Hm Hpath Hv) in Hadd.
  destruct (addRoute _ path _) as [msg|root']; [discriminate|].
  injection Hadd as <-. unfold allocator_invariant. simpl.
  pose proof (Z.mod_pos_bound
                (countParams path
                 + synthetic_params (saveMatchedRoutePath (options r)))
                uint16_modulus eq_refl) as Hmod.
  fold (uint16_add (countParams path)
          (synthetic_params (saveMatchedRoutePath (options r)))) in Hmod.
  rewrite Hp.
  destruct (Z.gtb_spec
              (uint16_add (countParams path)
                 (synthetic_params (saveMatchedRoutePath (options r))))
              (maxParams r)) as [Hgt|Hle].
  - split; [|lia].
    destruct (Z.gtb_spec (maxParams r) 0); simpl;
      destruct (Z.gtb_spec
                  (uint16_add (countParams path)
                     (synthetic_params (saveMatchedRoutePath (options r)))) 0);
      try reflexivity; lia.
  - split; [|lia].
    destruct (Z.gtb_spec (maxParams r) 0); reflexivity.
Qed.

(** X3. The allocator follows [maxParams]. After any sequence of successful
    [Add] calls on a new router, [r.paramsNew] is nil exactly when
    [maxParams] is 0, and otherwise allocates with the capacity [maxParams],
    which is positive and fits a [uint16]. *)
Theorem allocator_follows_maxParams
    (opts : list Option_) (l : list (string * string * any U)) (r : Router U) :
  Add_all (New opts) l = Ok r ->
  (paramsNew_of r = None <-> maxParams r = 0)
  /\ (forall capacity, paramsNew_of r = Some capacity ->
        capacity = maxParams r /\ 0 < capacity < uint16_modulus).
Proof.
  intros Hall.
  assert (Hinv : allocator_invariant r).
  { assert (H0 : allocator_invariant (New opts : Router U))
      by (split; [reflexivity|unfold uint16_modulus; simpl; lia]).
    revert Hall H0. generalize (New opts : Router U).
    induction l as [|[[m p] v] rest IH]; intros r0 Hall H0.
    - injection Hall as <-. exact H0.
    - simpl in Hall.
      destruct (Add r0 m p v) as [r1|q] eqn:Hadd; [|discriminate].
      apply (IH r1 Hall). exact (Add_allocator_invariant r0 r1 m p v H0 Hadd). }
  destruct Hinv as [Hp Hrange]. unfold paramsNew_of. rewrite Hp.
  destruct (Z.gtb_spec (maxParams r) 0) as [Hpos|Hzero]; split.
  - split; [discriminate|lia].
  - intros c [= <-]. lia.
  - split; [lia|reflexivity].
  - intros c Hc. discriminate.
Qed.

Lemma Any_is_Add_all (r : Router U) (path : string) (value : any U) :
  Any r path value = Add_all r (Any_routes path value).
Proof.
  unfold Any, Any_routes, Any_methods. simpl.
  repeat (match goal with
          | |- bind ?x _ = bind ?x _ =>
              destruct x as [?r|?q]; simpl; [|reflexivity]
          end).
  destruct (Add _ MethodTrace path value); reflexivity.
Qed.

Lemma Add_all_distinct (l : list (string * string * any U)) (r r' : Router U) :
  NoDup (map (fun route => fst (fst route)) l) ->
  Add_all r l = Ok r' ->
  options r' = options r
  /\ forall method path value,
       In (method, path, value) l ->
       exists root',
         addRoute (tree_of r method) path
           (stored_value (saveMatchedRoutePath (options r)) path value)
           = inr root'
         /\ trees r' !! method = Some root'.
Proof.
  revert r. induction l as [|[[m p] v] rest IH]; intros r Hnodup Hall.
  - injection Hall as <-. split; [reflexivity|]. intros ? ? ? [].
  - simpl in Hall. destruct (Add r m p v) as [r1|q] eqn:Hadd; [|discriminate].
    simpl in Hall. simpl in Hnodup.
    apply NoDup_cons in Hnodup as [Hfresh Hnodup].
    destruct (IH r1 Hnodup Hall) as [Hopts Hrest].
    destruct (Add_grows r r1 m p v Hadd) as (root' & Hroot & Ht & Ho).
    split; [congruence|].
    intros method path value [Hhead|Htail].
    + injection Hhead as <- <- <-. exists root'. split; [exact Hroot|].
      assert (Hnot : forall path value, ~ In (m, path, value) rest).
      { intros path value Hin. apply Hfresh.
        apply list_elem_of_In. apply in_map_iff. exists (m, path, value).
        split; [reflexivity|exact Hin]. }
      rewrite (proj2 (Add_all_trees rest r1 r' m Hall) Hnot), Ht.
      apply lookup_insert_eq.
    + destruct (Hrest method path value Htail) as (root2 & Hroot2 & Ht2).
      exists root2. split; [|exact Ht2].
      rewrite Ho in Hroot2. rewrite <- Hroot2. f_equal.
      unfold tree_of. rewrite Ht, lookup_insert_ne; [reflexivity|].
      intros ->. apply Hfresh.
      apply list_elem_of_In. apply in_map_iff. exists (method, path, value).
      split; [reflexivity|exact Htail].
Qed.

(** X9. When [Any] returns, each of its nine methods holds the tree that
    [addRoute] grew from the tree the method had before, with the value
    stored as [Add] stores it; the trees of all other methods and the options
    are as they were. *)
Theorem Any_registers_every_method
    (r r' : Router U) (path : string) (value : any U) :
  Any r path value = Ok r' ->
  options r' = options r
  /\ (forall method,
        In method Any_methods ->
        exists root',
          addRoute (tree_of r method) path
            (stored_value (saveMatchedRoutePath (options r)) path value)
            = inr root'
          /\ trees r' !! method = Some root')
  /\ (forall method,
        ~ In method Any_methods -> trees r' !! method = trees r !! method).
Proof.
  rewrite Any_is_Add_all. intros Hall.
  assert (Hnodup : NoDup (map (fun route : string * string * any U =>
                                 fst (fst route)) (Any_routes path value))).
  { unfold Any_routes. rewrite map_map. simpl.
    apply (bool_decide_unpack _). vm_compute. exact I. }
  destruct (Add_all_distinct _ r r' Hnodup Hall) as [Hopts Hin].
  split; [exact Hopts|]. split.
  - intros method Hm. apply (Hin method path value).
    unfold Any_routes. apply in_map_iff. exists method.
    split; [reflexivity|exact Hm].
  - intros method Hm. apply (proj2 (Add_all_trees _ r r' method Hall)).
    intros p v Hroute. apply Hm. unfold Any_routes in Hroute.
    apply in_map_iff in Hroute as (m & Heq & Hmem). injection Heq as -> _ _.
    exact Hmem.
Qed.

(** X12. Registrations for different methods commute: when registering a
    route for one method and then a route for another succeeds, registering
    them in the other order succeeds too and leaves the same router. *)
Theorem Add_commutes_across_methods
    (r r' : Router U) (m1 p1 m2 p2 : string) (v1 v2 : any U) :
  m1 <> m2 ->
  (r1 <- Add r m1 p1 v1 ;; Add r1 m2 p2 v2) = Ok r' ->
  (r2 <- Add r m2 p2 v2 ;; Add r2 m1 p1 v1) = Ok r'.
Proof.
  intros Hne Hreg.
  destruct (Add r m1 p1 v1) as [r1|q] eqn:Hadd1; [|discriminate].
  simpl in Hreg.
  destruct (Add_returns r r1 m1 p1 v1 Hadd1) as (Hm1 & Hp1 & Hv1).
  destruct (Add_returns r1 r' m2 p2 v2 Hreg) as (Hm2 & Hp2 & Hv2).
  rewrite (Add_guarded r m1 p1 v1 Hm1 Hp1 Hv1) in Hadd1.
  destruct (addRoute (tree_of r m1) p1 _) as [msg|t1] eqn:Ht1; [discriminate|].
  injection Hadd1 as <-.
  rewrite (Add_guarded _ m2 p2 v2 Hm2 Hp2 Hv2) in Hreg.
  unfold tree_of in Hreg at 1. simpl in Hreg.
  rewrite lookup_insert_ne in Hreg by exact Hne.
  fold (tree_of r m2) in Hreg.
  destruct (addRoute (tree_of r m2) p2 _) as [msg|t2] eqn:Ht2; [discriminate|].
  injection Hreg as <-.
  rewrite (Add_guarded r m2 p2 v2 Hm2 Hp2 Hv2), Ht2. simpl.
  rewrite (Add_guarded _ m1 p1 v1 Hm1 Hp1 Hv1).
  unfold tree_of at 1. simpl.
  rewrite lookup_insert_ne by (intros Heq; apply Hne; symmetry; exact Heq).
  fold (tree_of r m1). rewrite Ht1. simpl.
  f_equal.
  set (x := uint16_add (countParams p1)
              (synthetic_params (saveMatchedRoutePath (options r)))).
  set (y := uint16_add (countParams p2)
              (synthetic_params (saveMatchedRoutePath (options r)))).
  set (a := maxParams r).
  rewrite !gtb_max.
  f_equal.
  - apply insert_insert_ne. exact Hne.
  - destruct (paramsNew r); simpl; [reflexivity|].
    repeat match goal with
           | |- context [?u >? ?v] => destruct (Z.gtb_spec u v); simpl
           end; try reflexivity; lia.
  - lia.
Qed.

(** X10. The guards of [Add] fire in a fixed order, each with its own panic:
    an empty method first, then a pattern that does not begin with ['/'] (the
    panic carries the pattern), then a nil value; [Pattern.Add] has the last
    two. Past the guards a panic of [addRoute] comes out unchanged. *)
Theorem Add_panics_in_order
    (r : Router U) (p : Pattern U) (method path : string) (value : any U) :
  (method = EmptyString -> Add r method path value = Panic PanicMethodEmpty)
  /\ (method <> EmptyString -> ~ begins_with_slash path ->
      Add r method path value = Panic (PanicPath path))
  /\ (method <> EmptyString -> begins_with_slash path -> value = nil_value ->
      Add r method path value = Panic PanicValueNil)
  /\ (~ begins_with_slash path ->
      Pattern_Add p path value = Panic (PanicPath path))
  /\ (begins_with_slash path -> value = nil_value ->
      Pattern_Add p path value = Panic PanicValueNil)
  /\ (forall msg,
        method <> EmptyString -> begins_with_slash path -> value <> nil_value ->
        addRoute (tree_of r method) path
          (stored_value (saveMatchedRoutePath (options r)) path value)
          = inl msg ->
        Add r method path value = Panic (PanicTree msg)).
Proof.
  assert (Hbad : ~ begins_with_slash path ->
                 (len path <? 1) || negb (byte_is path 0 "/") = true).
  { intros Hp. destruct ((len path <? 1) || negb (byte_is path 0 "/")) eqn:H;
      [reflexivity|]. apply path_check_spec in H. contradiction. }
  repeat split.
  - intros ->. reflexivity.
  - intros Hm Hp. unfold Add.
    destruct (String.eqb_spec method EmptyString); [contradiction|].
    rewrite (Hbad Hp). reflexivity.
  - intros Hm Hp ->. unfold Add.
    destruct (String.eqb_spec method EmptyString); [contradiction|].
    apply path_check_spec in Hp. rewrite Hp. reflexivity.
  - intros Hp. unfold Pattern_Add. rewrite (Hbad Hp). reflexivity.
  - intros Hp ->. unfold Pattern_Add.
    apply path_check_spec in Hp. rewrite Hp. reflexivity.
  - intros msg Hm Hp Hv Hmsg.
    rewrite (Add_guarded r method path value Hm Hp Hv), Hmsg. reflexivity.
Qed.

(** ** Matching *)

(** X5. Without save-matched-route-path mode [Match] and [Lookup] agree on
    every hit: the value and the parameters [Lookup] returns are what [Match]
    returns, with the match flag set and without any redirect. *)
Theorem Match_agrees_with_Lookup
    (r : Router U) (method path : string) (fuel : nat)
    (value : any U) (ps : option Params) (tsr : bool) :
  saveMatchedRoutePath (options r) = false ->
  fst (Lookup r method path) = (value, ps, tsr) ->
  value <> nil_value ->
  Match (S fuel) r method path = Some (Ok (value, ps, true))
  /\ redirects (S fuel) r method path (paramsNew_of r) = [].
Proof.
  intros Hsave Hlook Hv. unfold Lookup in Hlook.
  destruct (trees r !! method) as [root|] eqn:Ht;
    [|simpl in Hlook; injection Hlook as <- _ _; contradiction].
  destruct (getValue root path (paramsNew_of r)) as [[v l] t] eqn:Hg.
  destruct (is_nil v) eqn:Hnil.
  - simpl in Hlook. injection Hlook as <- _ _. contradiction.
  - assert (Hsame : (v, l, t) = (value, ps, tsr))
      by (destruct l; exact Hlook).
    injection Hsame as -> -> ->.
    destruct (match_hit r method path (paramsNew_of r) root value ps tsr fuel
                Ht Hg Hnil) as [Hres Hhops].
    split; [|exact Hhops]. unfold Match. rewrite Hres, Hsave.
    destruct ps; reflexivity.
Qed.

Lemma deliver_panics (save : bool) (value : any U) (ps : option Params)
    (q : panic) :
  deliver save value ps = Panic q -> save = true /\ q = PanicNotMatchValue.
Proof.
  unfold deliver. destruct save.
  - destruct value; try (intros [= <-]; split; reflexivity);
      destruct ps; discriminate.
  - destruct ps; discriminate.
Qed.

(** The three ways through the body of [match]. *)
Lemma match_body_cases (r : Router U) (method path : string) (pn : option Z) :
  (exists root value ps tsr,
      trees r !! method = Some root
      /\ getValue root path pn = (value, ps, tsr)
      /\ is_nil value = false
      /\ match_body r method path pn
         = (a <- deliver (saveMatchedRoutePath (options r)) value ps ;;
            Ok (Return a)))
  \/ match_body r method path pn = Ok (Return no_match)
  \/ exists path', match_body r method path pn = Ok (Again path').
Proof.
  unfold match_body.
  destruct (trees r !! method) as [root|]; [|right; left; reflexivity].
  destruct (getValue root path pn) as [[value ps] tsr] eqn:Hg.
  destruct (is_nil value) eqn:Hnil; simpl.
  - right.
    destruct (negb (String.eqb method MethodConnect)
              && negb (String.eqb path "/")); [|left; reflexivity].
    destruct (tsr && redirectTrailingSlash (options r));
      [right; eexists; reflexivity|].
    destruct (redirectFixedPath (options r)); [|left; reflexivity].
    destruct (findCaseInsensitivePath root (CleanPath path) _) as [fixed found].
    destruct found; [right; eexists; reflexivity|left; reflexivity].
  - left. exists root, value, ps, tsr.
    split; [reflexivity|]. split; [exact Hg|]. split; [exact Hnil|].
    reflexivity.
Qed.

(** X6. What [match] can answer, after any number of redirects. It panics
    only in save-matched-route-path mode, and only with the panic of a value
    that is not a [matchValue]. A true match flag comes, without the mode,
    with a value that is not nil, and in the mode with parameters whose last
    entry is the [MatchedRoutePathParam]. *)
Theorem match_answers
    (r : Router U) (method path : string) (pn : option Z) (fuel : nat) :
  (forall q, match_ fuel r method path pn = Some (Panic q) ->
             saveMatchedRoutePath (options r) = true
             /\ q = PanicNotMatchValue)
  /\ (forall value ps,
        match_ fuel r method path pn = Some (Ok (value, ps, true)) ->
        if saveMatchedRoutePath (options r)
        then exists captures matchedPath,
               ps = Some (captures
                          ++ [mkParam MatchedRoutePathParam matchedPath])
        else value <> nil_value).
Proof.
  revert path pn. induction fuel as [|fuel IH]; intros path pn.
  - split; intros; discriminate.
  - simpl.
    destruct (match_body_cases r method path pn)
      as [(root & value & ps & tsr & _ & _ & Hnil & ->)|[->|[path' ->]]].
    + destruct (deliver (saveMatchedRoutePath (options r)) value ps)
        as [a|q0] eqn:Hd; simpl.
      * split; [discriminate|]. intros v l [= ->].
        unfold deliver in Hd.
        destruct (saveMatchedRoutePath (options r)).
        -- destruct value as [|u|mp w]; try discriminate.
           destruct ps as [c|]; injection Hd as <- <-.
           ++ exists c, mp. reflexivity.
           ++ exists [], mp. reflexivity.
        -- destruct ps; injection Hd as <- _; intros ->; discriminate.
      * split; [|discriminate]. intros q [= <-].
        exact (deliver_panics _ _ _ _ Hd).
    + split; discriminate.
    + apply IH.
Qed.

(** X7. With both redirects disabled [match] never calls itself: it makes no
    redirect, more fuel changes nothing, and a miss of the tree is no
    match. *)
Theorem Match_without_redirects
    (r : Router U) (method path : string) (pn : option Z) (fuel : nat) :
  redirectTrailingSlash (options r) = false ->
  redirectFixedPath (options r) = false ->
  redirects fuel r method path pn = []
  /\ match_ (S fuel) r method path pn = match_ 1 r method path pn
  /\ (forall root,
        trees r !! method = Some root ->
        fst (fst (getValue root path pn)) = nil_value ->
        match_ (S fuel) r method path pn = Some (Ok no_match)).
Proof.
  intros Hts Hfp.
  assert (Hbody : forall path', match_body r method path pn <> Ok (Again path')).
  { intros path'. unfold match_body.
    destruct (trees r !! method) as [root|]; [|discriminate].
    destruct (getValue root path pn) as [[value ps] tsr].
    rewrite Hts, Hfp, andb_false_r.
    destruct (negb (is_nil value)).
    - destruct (deliver _ value ps); discriminate.
    - destruct (negb (String.eqb method MethodConnect)
                && negb (String.eqb path "/")); discriminate. }
  split; [|split].
  - destruct fuel; [reflexivity|]. simpl.
    destruct (match_body r method path pn) as [[a|path']|q] eqn:Hb;
      [reflexivity| |reflexivity].
    exfalso. exact (Hbody path' eq_refl).
  - simpl. destruct (match_body r method path pn) as [[a|path']|q] eqn:Hb;
      [reflexivity| |reflexivity].
    exfalso. exact (Hbody path' eq_refl).
  - intros root Ht Hmiss. simpl.
    destruct (getValue root path pn) as [[value ps] tsr] eqn:Hg.
    simpl in Hmiss. subst value.
    rewrite (match_body_miss r method path pn root ps tsr Ht Hg).
    rewrite Hts, Hfp, andb_false_r.
    destruct (negb (String.eqb method MethodConnect)
              && negb (String.eqb path "/")); reflexivity.
Qed.

(** X8. What [MatchedRoutePath] reads from a match. For a path the tree
    resolves, [MatchURL] returns as matched route path the empty string
    without save-matched-route-path mode and the registered pattern in the
    mode, as long as no captured parameter has the key
    [MatchedRoutePathParam]; a captured parameter with that key comes first
    and its value is returned instead. *)
Theorem MatchURL_matched_route_path
    (r : Router U) (method path : string) (fuel : nat) (root : node)
    (value : any U) (ps : option Params) (tsr : bool) :
  trees r !! method = Some root ->
  getValue root path None = (value, ps, tsr) ->
  value <> nil_value ->
  (Forall (fun p => Key p <> MatchedRoutePathParam) (elems ps) ->
   (saveMatchedRoutePath (options r) = false ->
    MatchURL (S fuel) r method path = Some (Ok (value, EmptyString, true)))
   /\ (forall matchedPath v,
         saveMatchedRoutePath (options r) = true ->
         value = matchValue matchedPath v ->
         MatchURL (S fuel) r method path = Some (Ok (v, matchedPath, true))))
  /\ (forall before p after,
        elems ps = before ++ p :: after ->
        Forall (fun p => Key p <> MatchedRoutePathParam) before ->
        Key p = MatchedRoutePathParam ->
        (saveMatchedRoutePath (options r) = false ->
         MatchURL (S fuel) r method path = Some (Ok (value, Value p, true)))
        /\ (forall matchedPath v,
              saveMatchedRoutePath (options r) = true ->
              value = matchValue matchedPath v ->
              MatchURL (S fuel) r method path = Some (Ok (v, Value p, true)))).
Proof.
  intros Ht Hg Hv.
  assert (Hnil : is_nil value = false)
    by (destruct value; [contradiction|reflexivity|reflexivity]).
  pose proof (proj1 (match_hit r method path None root value ps tsr fuel
                       Ht Hg Hnil)) as Hres.
  assert (Hoff : saveMatchedRoutePath (options r) = false ->
                 MatchURL (S fuel) r method path
                 = Some (Ok (value,
                             Params_Param (elems ps) MatchedRoutePathParam,
                             true))).
  { intros Hsave. unfold MatchURL. rewrite Hres, Hsave.
    destruct ps; reflexivity. }
  assert (Hon : forall matchedPath v,
             saveMatchedRoutePath (options r) = true ->
             value = matchValue matchedPath v ->
             MatchURL (S fuel) r method path
             = Some (Ok (v,
                         Params_Param
                           (elems ps
                            ++ [mkParam MatchedRoutePathParam matchedPath])
                           MatchedRoutePathParam,
                         true))).
  { intros matchedPath v Hsave ->. unfold MatchURL. rewrite Hres, Hsave.
    destruct ps; reflexivity. }
  split.
  - intros Hkeys. split.
    + intros Hsave. rewrite (Hoff Hsave). do 3 f_equal.
      rewrite <- (app_nil_r (elems ps)).
      rewrite (Params_Param_skip _ _ _ Hkeys). reflexivity.
    + intros matchedPath v Hsave Hval. rewrite (Hon matchedPath v Hsave Hval).
      rewrite (Params_Param_skip _ _ _ Hkeys). reflexivity.
  - intros before p after Hsplit Hkeys Hkey.
    assert (Hfirst : forall rest,
               Params_Param ((before ++ p :: after) ++ rest)
                 MatchedRoutePathParam = Value p).
    { intros rest. rewrite <- app_assoc.
      rewrite (Params_Param_skip _ _ _ Hkeys). simpl.
      destruct (String.eqb_spec (Key p) MatchedRoutePathParam);
        [reflexivity|contradiction]. }
    split.
    + intros Hsave. rewrite (Hoff Hsave), Hsplit.
      rewrite <- (app_nil_r (before ++ p :: after)), Hfirst. reflexivity.
    + intros matchedPath v Hsave Hval. rewrite (Hon matchedPath v Hsave Hval).
      rewrite Hsplit, Hfirst. reflexivity.
Qed.

End Coverage.

(** ** The properties at work on the routers of the test-suite *)

Module Instances.

Import Fixtures.

#[local] Existing Instance Trie.engine.

(** Closed goals over the fixtures are settled by evaluation. *)
Ltac by_evaluation := vm_compute; reflexivity.

Lemma router_of_returned (x : result (Router string)) :
  returned x = true -> x = Ok (router_of x).
Proof. destruct x; [reflexivity|discriminate]. Qed.

Lemma tree_grown_inr (x : string + Trie.node string) :
  no_panic x = true -> x = inr (tree_grown x).
Proof. destruct x; [discriminate|reflexivity]. Qed.

(** C1 as stated fails in two ways, both with the two redirects enabled.
    For CONNECT, the lookup of [/path/] misses with the trailing-slash
    flag set and the toggled path [/path] is registered, yet [Match]
    answers no match and makes no redirect. For GET on [chain_router], the
    lookup of [/a/] misses with the flag set; the toggled path [/a] misses
    in its turn, without flag, and the policy is applied to it again: two
    passes of [match] do not finish the request, which is answered by
    [/A] after two redirects, a slash toggle and a case fix. *)
Lemma redirect_policy_skips_connect_and_chains :
  (redirectTrailingSlash (options connect_router) = true
   /\ redirectFixedPath (options connect_router) = true
   /\ fst (Lookup connect_router "CONNECT" "/path/")
      = (nil_value, None, true)
   /\ Match 3 connect_router "CONNECT" (toggle_slash "/path/")
      = Some (Ok (user_value "tunnel", None, true))
   /\ Match 3 connect_router "CONNECT" "/path/" = Some (Ok no_match)
   /\ redirects 3 connect_router "CONNECT" "/path/"
        (paramsNew_of connect_router) = [])
  /\ (redirectTrailingSlash (options chain_router) = true
      /\ redirectFixedPath (options chain_router) = true
      /\ fst (Lookup chain_router "GET" "/a/") = (nil_value, None, true)
      /\ toggle_slash "/a/" = "/a"
      /\ fst (Lookup chain_router "GET" "/a") = (nil_value, None, false)
      /\ Match 2 chain_router "GET" "/a/" = None
      /\ Match 3 chain_router "GET" "/a/"
         = Some (Ok (user_value "/A", None, true))
      /\ redirects 3 chain_router "GET" "/a/" (paramsNew_of chain_router)
         = ["/a"; "/A"]).
Proof. repeat split; by_evaluation. Qed.

(** C5 as stated fails for [match]. On the router of [TestRouterRedirect]
    the lookup of [/PATH] finds no value and reports no trailing-slash
    flag, yet [match] does not answer [(nil, nil, false)]: the fixed-path
    correction finds [/path] and [match] answers with its value and a true
    flag. *)
Lemma match_corrects_a_miss :
  getValue (tree_of redirect_router "GET") "/PATH"
    (paramsNew_of redirect_router) = (nil_value, None, false)
  /\ fst (Lookup redirect_router "GET" "/PATH") = (nil_value, None, false)
  /\ redirectFixedPath (options redirect_router) = true
  /\ findCaseInsensitivePath (tree_of redirect_router "GET")
       (CleanPath (U := string) "/PATH")
       (redirectTrailingSlash (options redirect_router)) = ("/path", true)
  /\ Match 2 redirect_router "GET" "/PATH"
     = Some (Ok (user_value "/path", None, true)).
Proof. repeat split; by_evaluation. Qed.

Lemma Add_preconditions_witness :
  ((exists q, Add (New []) "GET" "noSlashRoot" (user_value "v") = Panic q
              /\ (q = PanicMethodEmpty \/ precondition_panic q))
   /\ (exists q, Pattern_Add (NewPattern []) "noSlashRoot" (user_value "v")
                 = Panic q /\ precondition_panic q))
  /\ ((forall q, Add (New []) "GET" "/" (user_value "v") = Panic q ->
                 ~ precondition_panic q)
      /\ (forall q, Pattern_Add (NewPattern []) "/" (user_value "v")
                    = Panic q -> ~ precondition_panic q)).
Proof.
  split.
  - apply (proj1 (Add_preconditions (New []) (NewPattern []) "GET"
                    "noSlashRoot" (user_value "v"))).
    left. unfold begins_with_slash. simpl. discriminate.
  - apply (proj2 (Add_preconditions (New []) (NewPattern []) "GET" "/"
                    (user_value "v"))).
    + reflexivity.
    + discriminate.
Defined.

Lemma no_redirect_for_connect_or_root_witness :
  (match_ 1 connect_router "CONNECT" "/path/" (paramsNew_of connect_router)
     = Some (Ok no_match)
   /\ redirects 1 connect_router "CONNECT" "/path/"
        (paramsNew_of connect_router) = [])
  /\ Pattern_MatchURL 1 path_pattern "/" = Some (Ok (nil_value, EmptyString, false)).
Proof.
  split.
  - apply (proj1 (no_redirect_for_connect_or_root connect_router path_pattern
                    "CONNECT" "/path/" (paramsNew_of connect_router) 0)).
    + left. reflexivity.
    + intros root Hroot. vm_compute in Hroot. injection Hroot as <-.
      by_evaluation.
  - apply (proj2 (no_redirect_for_connect_or_root connect_router path_pattern
                    "CONNECT" "/path/" (paramsNew_of connect_router) 0)).
    by_evaluation.
Defined.

Lemma no_match_is_a_result_witness :
  (Lookup redirect_router "POST" "/path" = (no_match, redirect_router)
   /\ match_ 1 redirect_router "POST" "/path" None = Some (Ok no_match))
  /\ Lookup redirect_router "GET" "/nope" = (no_match, redirect_router)
  /\ match_ 1 redirect_router "GET" "/nope" None = Some (Ok no_match).
Proof.
  pose proof (no_match_is_a_result redirect_router "POST" "/path" None 0)
    as (Hnone & _).
  pose proof (no_match_is_a_result redirect_router "GET" "/nope" None 0)
    as (_ & Hlookup & Hmatch).
  split; [|split].
  - apply Hnone. by_evaluation.
  - apply (Hlookup (tree_of redirect_router "GET") None);
      by_evaluation.
  - apply (Hmatch (tree_of redirect_router "GET") None);
      [by_evaluation|by_evaluation|].
    right. right. right. by_evaluation.
Defined.

(** [TestRouterMatchedRoutePath] and
    [TestRouterEnableSaveMatchedRouterPathPanicShouldNotHappen]. *)
Lemma save_matched_route_path_witness :
  (exists root',
      addRoute (tree_of saving_router "GET") "/about"
        (matchValue "/about" (user_value "handle4")) = inr root'
      /\ trees (router_of about_route)
         = <["GET" := root']> (trees saving_router))
  /\ match_ 1 saving_router "GET" "/user/gopher" (paramsNew_of saving_router)
     = Some (Ok (user_value "handle1",
                 Some (elems (Some [mkParam "name" "gopher"])
                       ++ [mkParam MatchedRoutePathParam "/user/:name"]),
                 true))
  /\ match_ 1 late_saving_router "GET" "/user/gopher"
       (paramsNew_of late_saving_router)
     = Some (Panic PanicNotMatchValue).
Proof.
  split; [|split].
  - apply (proj1 (save_matched_route_path saving_router "GET" "/about" None 0
                    ltac:(by_evaluation)) (user_value "handle4")).
    apply router_of_returned. by_evaluation.
  - apply (proj1 (proj2 (save_matched_route_path saving_router "GET"
                           "/user/gopher" (paramsNew_of saving_router) 0
                           ltac:(by_evaluation)))
             (tree_of saving_router "GET") "/user/:name"
             (user_value "handle1") (Some [mkParam "name" "gopher"]) false);
      by_evaluation.
  - apply (proj2 (proj2 (save_matched_route_path late_saving_router "GET"
                           "/user/gopher" (paramsNew_of late_saving_router) 0
                           ltac:(by_evaluation)))
             (tree_of late_saving_router "GET") (user_value "handle1")
             (Some [mkParam "name" "gopher"]) false);
      [by_evaluation|by_evaluation|discriminate|
       discriminate].
Defined.

(** [TestRouterRedirect]: [/path/] is one slash toggle away from [/path],
    [/PATH] one case fix; a CONNECT request for [/path/] is not
    redirected. *)
Lemma redirect_policy_witness :
  (match_ 2 redirect_router "GET" "/path/" (paramsNew_of redirect_router)
     = Some (deliver (saveMatchedRoutePath (options redirect_router))
               (user_value "/path") None)
   /\ redirects 2 redirect_router "GET" "/path/"
        (paramsNew_of redirect_router) = ["/path"])
  /\ (match_ 2 redirect_router "GET" "/PATH" (paramsNew_of redirect_router)
        = Some (deliver (saveMatchedRoutePath (options redirect_router))
                  (user_value "/path") None)
      /\ redirects 2 redirect_router "GET" "/PATH"
           (paramsNew_of redirect_router) = ["/path"])
  /\ (match_ 1 connect_router "CONNECT" "/path/"
        (paramsNew_of connect_router) = Some (Ok no_match)
      /\ redirects 1 connect_router "CONNECT" "/path/"
           (paramsNew_of connect_router) = []).
Proof.
  split; [|split].
  - pose proof (proj2 (redirect_policy redirect_router "GET" "/path/"
                         (paramsNew_of redirect_router) 0
                         (tree_of redirect_router "GET") None true
                         ltac:(by_evaluation)
                         ltac:(by_evaluation)
                         ltac:(by_evaluation)
                         ltac:(by_evaluation))
                  ltac:(discriminate) ltac:(discriminate)) as Hpolicy.
    change (redirect_target (tree_of redirect_router "GET") "/path/" true)
      with (Some "/path") in Hpolicy.
    apply (proj2 (proj2 Hpolicy) (user_value "/path") None false);
      [by_evaluation|discriminate].
  - pose proof (proj2 (redirect_policy redirect_router "GET" "/PATH"
                         (paramsNew_of redirect_router) 0
                         (tree_of redirect_router "GET") None false
                         ltac:(by_evaluation)
                         ltac:(by_evaluation)
                         ltac:(by_evaluation)
                         ltac:(by_evaluation))
                  ltac:(discriminate) ltac:(discriminate)) as Hpolicy.
    assert (Htarget : redirect_target (tree_of redirect_router "GET")
                        "/PATH" false = Some "/path")
      by (by_evaluation).
    rewrite Htarget in Hpolicy.
    apply (proj2 (proj2 Hpolicy) (user_value "/path") None false);
      [by_evaluation|discriminate].
  - apply (proj1 (redirect_policy connect_router "CONNECT" "/path/"
                    (paramsNew_of connect_router) 0
                    (tree_of connect_router "CONNECT") None true
                    ltac:(by_evaluation)
                    ltac:(by_evaluation)
                    ltac:(by_evaluation)
                    ltac:(by_evaluation))).
    left. reflexivity.
Defined.

(** The failing input of C7: a router in save-matched-route-path mode and
    the pattern of 65535 parameters. *)
Lemma wide_pattern_count : countParams (U := string) wide_pattern = 65535.
Proof. by_evaluation. Qed.

Lemma wide_pattern_begins_with_slash : begins_with_slash wide_pattern.
Proof. by_evaluation. Qed.

Lemma wide_tree_grown : wide_tree = inr (tree_grown wide_tree).
Proof. apply tree_grown_inr. by_evaluation. Qed.

Lemma Add_maxParams_wraps_around_witness :
  exists r' : Router string,
    Add saving_new "GET" wide_pattern wide_value = Ok r'
    /\ trees r' !! "GET" = Some (tree_grown wide_tree)
    /\ maxParams r' = 0
    /\ maxParams r' < countParams (U := string) wide_pattern + 1.
Proof.
  exact (Add_maxParams_wraps_around saving_new "GET" wide_pattern wide_value
           (tree_grown wide_tree) eq_refl eq_refl wide_pattern_count
           ltac:(discriminate) wide_pattern_begins_with_slash
           ltac:(discriminate) wide_tree_grown).
Defined.

End Instances.

(** ** The further properties at work *)

Module More_instances.

Import Fixtures.

#[local] Existing Instance Trie.engine.

Ltac evaluated := vm_compute; reflexivity.

Lemma pattern_of_returned (x : result (Pattern string)) :
  returned x = true -> x = Ok (pattern_of x).
Proof. destruct x; [reflexivity|discriminate]. Qed.

Lemma returned_router (x : result (Router string)) :
  returned x = true -> x = Ok (router_of x).
Proof. destruct x; [reflexivity|discriminate]. Qed.

Lemma listed_router_built : Add_all (New []) redirect_routes = Ok listed_router.
Proof. apply returned_router. evaluated. Qed.

Lemma plain_router_built :
  Add_all (New [WithDisableRedirectFixedPath; WithDisableRedirectTrailingSlash])
    redirect_routes = Ok plain_router.
Proof. apply returned_router. evaluated. Qed.

Lemma saving_listed_router_built :
  Add_all (New [WithSaveMatchedRoutePath]) saving_routes
    = Ok saving_listed_router.
Proof. apply returned_router. evaluated. Qed.

Lemma any_router_built : Any (New []) "/ANY" (any_of "any") = Ok any_router.
Proof. apply returned_router. evaluated. Qed.

Lemma two_method_router_built :
  (r1 <- Add (New []) "GET" "/a" (any_of "a") ;;
   Add r1 "POST" "/b" (any_of "b")) = Ok two_method_router.
Proof. apply returned_router. evaluated. Qed.

Lemma methods_are_registered_apart_witness :
  (is_Some (trees listed_router !! "POST")
   <-> exists p value, In ("POST", p, value) redirect_routes)
  /\ Lookup listed_router "POST" "/path" = (no_match, listed_router)
  /\ Match 1 listed_router "POST" "/path" = Some (Ok no_match).
Proof.
  destruct (methods_are_registered_apart [] redirect_routes listed_router
              "POST" "/path" 0 listed_router_built) as [Hiff Hmiss].
  split; [exact Hiff|]. apply Hmiss.
  intros p value Hin. simpl in Hin.
  repeat destruct Hin as [Hin|Hin]; try discriminate Hin. exact Hin.
Defined.

Lemma allocator_follows_maxParams_witness :
  (paramsNew_of saving_listed_router = None
   <-> maxParams saving_listed_router = 0)
  /\ (forall capacity,
        paramsNew_of saving_listed_router = Some capacity ->
        capacity = maxParams saving_listed_router
        /\ 0 < capacity < uint16_modulus).
Proof.
  exact (allocator_follows_maxParams [WithSaveMatchedRoutePath] saving_routes
           saving_listed_router saving_listed_router_built).
Defined.

Lemma toggle_slash_round_trip_witness :
  toggle_slash EmptyString <> EmptyString
  /\ toggle_slash "/path" <> "/path"
  /\ toggle_slash (toggle_slash "/path") = "/path".
Proof.
  split; [exact (proj1 (toggle_slash_round_trip EmptyString))|].
  split; [exact (proj1 (toggle_slash_round_trip "/path"))|].
  apply (proj2 (toggle_slash_round_trip "/path")); [discriminate|].
  intros q Hq.
  do 6 (destruct q as [|? q]; [cbv in Hq; discriminate Hq|]).
  cbv in Hq. discriminate Hq.
Defined.

Lemma Match_agrees_with_Lookup_witness :
  Match 1 listed_router "GET" "/path" = Some (Ok (any_of "/path", None, true))
  /\ redirects 1 listed_router "GET" "/path" (paramsNew_of listed_router) = [].
Proof.
  apply (Match_agrees_with_Lookup listed_router "GET" "/path" 0
           (any_of "/path") None false);
    [evaluated|evaluated|discriminate].
Defined.

Lemma Match_without_redirects_witness :
  redirects 3 plain_router "GET" "/path/" (paramsNew_of plain_router) = []
  /\ match_ 4 plain_router "GET" "/path/" (paramsNew_of plain_router)
     = Some (Ok no_match).
Proof.
  destruct (Match_without_redirects plain_router "GET" "/path/"
              (paramsNew_of plain_router) 3
              ltac:(evaluated) ltac:(evaluated)) as (Hhops & _ & Hmiss).
  split; [exact Hhops|].
  apply (Hmiss (tree_of plain_router "GET")); evaluated.
Defined.

Lemma MatchURL_matched_route_path_witness :
  MatchURL 1 name_router "GET" "/GET/myName"
    = Some (Ok (any_of "get", EmptyString, true))
  /\ MatchURL 1 saving_listed_router "GET" "/user/gopher"
     = Some (Ok (any_of "handle1", "/user/:name", true)).
Proof.
  assert (Hkeys : forall v : string,
             Forall (fun p => Key p <> MatchedRoutePathParam)
               (elems (Some [mkParam "name" v])))
    by (intros v; repeat constructor; simpl; discriminate).
  split.
  - apply (proj1 (proj1 (MatchURL_matched_route_path name_router "GET"
                           "/GET/myName" 0 (tree_of name_router "GET")
                           (any_of "get") (Some [mkParam "name" "myName"])
                           false ltac:(evaluated) ltac:(evaluated)
                           ltac:(discriminate))
                    (Hkeys "myName"))).
    evaluated.
  - apply (proj2 (proj1 (MatchURL_matched_route_path saving_listed_router
                           "GET" "/user/gopher" 0
                           (tree_of saving_listed_router "GET")
                           (matchValue "/user/:name" (any_of "handle1"))
                           (Some [mkParam "name" "gopher"]) false
                           ltac:(evaluated) ltac:(evaluated)
                           ltac:(discriminate))
                    (Hkeys "gopher"))
             "/user/:name" (any_of "handle1")).
    + evaluated.
    + reflexivity.
Defined.

Lemma Any_registers_every_method_witness :
  options any_router = options (New [] : Router string)
  /\ (forall method,
        In method Any_methods ->
        exists root',
          addRoute (tree_of (New [] : Router string) method) "/ANY"
            (stored_value
               (saveMatchedRoutePath (options (New [] : Router string)))
               "/ANY" (any_of "any")) = inr root'
          /\ trees any_router !! method = Some root')
  /\ (forall method,
        ~ In method Any_methods ->
        trees any_router !! method
        = trees (New [] : Router string) !! method).
Proof.
  exact (Any_registers_every_method (New []) any_router "/ANY" (any_of "any")
           any_router_built).
Defined.

Lemma Add_all_maxParams_witness :
  maxParams saving_new <= maxParams saving_listed_router
  /\ options saving_listed_router = options saving_new
  /\ countParams (U := string) "/user/:name/details"
     + synthetic_params (saveMatchedRoutePath (options saving_new))
     <= maxParams saving_listed_router.
Proof.
  destruct (Add_all_maxParams saving_routes saving_new saving_listed_router
              saving_listed_router_built) as (Hmono & Hopts & Hcover).
  split; [exact Hmono|]. split; [exact Hopts|].
  apply (Hcover "GET" "/user/:name/details" (any_of "handle2")).
  - right. left. reflexivity.
  - evaluated.
Defined.

Lemma Add_commutes_across_methods_witness :
  (r2 <- Add (New []) "POST" "/b" (any_of "b") ;;
   Add r2 "GET" "/a" (any_of "a")) = Ok two_method_router.
Proof.
  apply (Add_commutes_across_methods (New []) two_method_router
           "GET" "/a" "POST" "/b" (any_of "a") (any_of "b"));
    [discriminate|exact two_method_router_built].
Defined.

Lemma Pattern_redirect_policy_witness :
  Pattern_MatchURL 2 path_pattern "/path/"
  = Pattern_MatchURL 1 path_pattern (toggle_slash "/path/").
Proof.
  pose proof (Pattern_redirect_policy path_pattern "/path/" 1 None true
                ltac:(evaluated) ltac:(evaluated) ltac:(discriminate)
                ltac:(evaluated)) as Hpolicy.
  cbv beta iota delta [redirect_target] in Hpolicy. exact Hpolicy.
Defined.

Lemma Pattern_save_matched_route_path_witness :
  addRoute (root (NewPattern [WithSaveMatchedRoutePath] : Pattern string))
    "/user/:name" (matchValue "/user/:name" (any_of "handle1"))
    = inr (root saving_pattern)
  /\ Pattern_MatchURL 1 saving_pattern "/user/gopher"
     = Some (Ok (any_of "handle1", "/user/:name", true))
  /\ Pattern_MatchURL 1 late_saving_pattern "/user/gopher"
     = Some (Panic PanicNotMatchValue).
Proof.
  split; [|split].
  - apply (proj1 (Pattern_save_matched_route_path
                    (NewPattern [WithSaveMatchedRoutePath]) "/user/:name" 0
                    ltac:(evaluated)) (any_of "handle1") saving_pattern).
    apply pattern_of_returned. evaluated.
  - apply (proj1 (proj2 (Pattern_save_matched_route_path saving_pattern
                           "/user/gopher" 0 ltac:(evaluated)))
             "/user/:name" (any_of "handle1")
             (Some [mkParam "name" "gopher"]) false).
    evaluated.
  - apply (proj2 (proj2 (Pattern_save_matched_route_path late_saving_pattern
                           "/user/gopher" 0 ltac:(evaluated)))
             "handle1" (Some [mkParam "name" "gopher"]) false).
    evaluated.
Defined.

End More_instances.
